(** * Waterline query methods: find, count, findOrCreate, replaceCollection

    A shallow embedding of four model methods: [MethodFind] and
    [MethodFindOrCreate] (lib/waterline/methods/find.ts), [MethodCount],
    and [MethodReplaceCollection]
    (lib/waterline/methods/replace-collection.ts).

    Each method builds a query dictionary from its arguments and hands
    [parley] a function of [done].  That function is embedded as a tree of
    calls ([proc]): every call the method makes to a forger, to a helper, to
    an adapter or to another model method is a node, and the continuation
    of the node is the callback (or the code after the call).  Running a
    tree against a [World], which answers the calls, yields the trace of
    calls and the arguments [done] received. *)

From stdpp Require Import base option list strings pretty gmap.
From Stdlib Require Import ZArith Permutation.

Set Warnings "-register-all".

(* ================================================================== *)
(** ** JavaScript values *)
(* ================================================================== *)

(** An Error object: [name], [code] and [details] are the properties the
    methods read or set; [None] is a property that is not there. *)
Record jserror := JsError {
  err_name : string;
  err_code : option string;
  err_details : option string;
  err_message : string
}.

(** The values the methods pass around.  A dictionary keeps its keys in
    insertion order, as a JavaScript object does.  A function is known by
    a name, a live model by its identity; [VAdapterErr raw m id] is what
    [forgeAdapterError(raw, omen, m, id, orm)] returns. *)
Inductive value :=
| VUndefined
| VNull
| VBool (b : bool)
| VNum (n : Z)
| VStr (s : string)
| VArr (items : list value)
| VDict (props : list (string * value))
| VFun (name : string)
| VErr (e : jserror)
| VModel (identity : string)
| VAdapterErr (raw : value) (adapterMethod modelIdentity : string).

Definition nl : string := String (Ascii.ascii_of_nat 10) EmptyString.

(** [if (v)] *)
Definition truthy (v : value) : bool :=
  match v with
  | VUndefined | VNull => false
  | VBool b => b
  | VNum n => negb (n =? 0)%Z
  | VStr s => negb (String.eqb s EmptyString)
  | _ => true
  end.

(** [_.isFunction(v)], [_.isUndefined(v)], [_.isNull(v)] *)
Definition isFunction (v : value) : bool :=
  match v with VFun _ => true | _ => false end.
Definition isUndefined (v : value) : bool :=
  match v with VUndefined => true | _ => false end.
Definition isNull (v : value) : bool :=
  match v with VNull => true | _ => false end.

(** [args[i]]: reading past the end of [arguments] gives [undefined]. *)
Definition arg (i : nat) (args : list value) : value :=
  default VUndefined (args !! i).

(** *** Dictionaries *)

Definition dict := list (string * value).

(** [o[k]] on an object whose properties are listed in order; [None] is
    a property that is not there. *)
Fixpoint assoc {A : Type} (k : string) (o : list (string * A)) : option A :=
  match o with
  | [] => None
  | (k', v) :: o' => if String.eqb k k' then Some v else assoc k o'
  end.

Definition dict_get (k : string) (d : dict) : option value := assoc k d.

(** [d[k] = v]: an existing key keeps its place, a new key goes last. *)
Fixpoint dict_set (k : string) (v : value) (d : dict) : dict :=
  match d with
  | [] => [(k, v)]
  | (k', v') :: d' =>
      if String.eqb k k' then (k, v) :: d' else (k', v') :: dict_set k v d'
  end.

(** [delete d[k]] *)
Fixpoint dict_delete (k : string) (d : dict) : dict :=
  match d with
  | [] => []
  | (k', v') :: d' =>
      if String.eqb k k' then dict_delete k d' else (k', v') :: dict_delete k d'
  end.

(** [_.extend(target, source)]: every key of [source], in order. *)
Definition dict_extend (target source : dict) : dict :=
  foldl (fun acc kv => dict_set kv.1 kv.2 acc) target source.

(** The own enumerable properties [_.extend] copies from a source: the
    properties of a dictionary, the elements of an array and the characters
    of a string under their indices, and none for the other values. *)
Definition own_props (v : value) : dict :=
  match v with
  | VDict d => d
  | VArr l => imap (fun i x => (pretty i, x)) l
  | VStr s =>
      imap (fun i c => (pretty i, VStr (String c EmptyString)))
           (String.list_ascii_of_string s)
  | _ => []
  end.

(** [x || {}] *)
Definition or_empty (v : value) : value :=
  if truthy v then v else VDict [].

(** [v[k]]: [None] is the TypeError of reading a property of [undefined]
    or [null]; a missing property reads as [undefined], and so does every
    named property of a value that is not a dictionary. *)
Definition get_prop (v : value) (k : string) : option value :=
  match v with
  | VUndefined | VNull => None
  | VDict d => Some (default VUndefined (dict_get k d))
  | _ => Some VUndefined
  end.

(** [delete v[k]]: [None] is the TypeError on [undefined] or [null];
    deleting from a value that has no such property changes nothing. *)
Definition delete_prop (v : value) (k : string) : option value :=
  match v with
  | VUndefined | VNull => None
  | VDict d => Some (VDict (dict_delete k d))
  | _ => Some v
  end.

(** A property key computed from a variable that may be [undefined]:
    [o[undefined]] is the property named "undefined". *)
Definition key_of (k : option string) : string :=
  default "undefined" k.

(** The items [_.each(v, fn)] visits: the elements of an array, the
    characters of a string, the values of a dictionary (or, when the
    dictionary has a [length] that is a natural number, what it holds
    under the indices below that length), and nothing for a number, a
    boolean, [null] and [undefined].  The ids stage 2 lets through are
    arrays; a function, which lodash would visit by its arity, and a
    model or an error, by its properties, are taken to hold nothing. *)
Definition each_items (v : value) : list value :=
  match v with
  | VArr l => l
  | VStr s => (fun c => VStr (String c EmptyString)) <$> String.list_ascii_of_string s
  | VDict d =>
      match dict_get "length" d with
      | Some (VNum n) =>
          if (0 <=? n)%Z
          then (fun i : nat => default VUndefined (dict_get (pretty i) d))
                 <$> seq 0 (Z.to_nat n)
          else d.*2
      | _ => d.*2
      end
  | _ => []
  end.

(** [!v.length]: [None] is the TypeError on [undefined] or [null].  A
    number and a boolean have no [length]; a function, whose [length] is
    its arity, a model and an error are taken to have none either. *)
Definition length_is_zero (v : value) : option bool :=
  match v with
  | VUndefined | VNull => None
  | VArr l => Some (Nat.eqb (length l) 0)
  | VStr s => Some (Nat.eqb (String.length s) 0)
  | VDict d => Some (negb (truthy (default VUndefined (dict_get "length" d))))
  | _ => Some true
  end.

(** [s.toLowerCase()] on the ASCII letters. *)
Definition lower_ascii (c : Ascii.ascii) : Ascii.ascii :=
  let n := Ascii.nat_of_ascii c in
  if (65 <=? n)%nat && (n <=? 90)%nat then Ascii.ascii_of_nat (n + 32) else c.

Fixpoint toLowerCase (s : string) : string :=
  match s with
  | EmptyString => EmptyString
  | String c s' => String (lower_ascii c) (toLowerCase s')
  end.

(** *** Errors the methods build *)

(** [new Error(message)] *)
Definition new_Error (message : string) : jserror :=
  JsError "Error" None None message.

(** [flaverr({ name: 'UsageError' }, new Error(message))] *)
Definition usage_error (message : string) : jserror :=
  JsError "UsageError" None None message.

(** ['  ' + e.details + '\n'], where a missing [details] prints as
    "undefined". *)
Definition details_line (e : jserror) : string :=
  "  " +:+ default "undefined" (err_details e) +:+ nl.

(** [e.code === c] *)
Definition has_code (e : jserror) (c : string) : bool :=
  match err_code e with
  | Some c' => String.eqb c' c
  | None => false
  end.

(** The TypeError of reading a property of [undefined]. *)
Definition type_error (what : string) : jserror :=
  JsError "TypeError" None None ("Cannot read properties of undefined (reading '" +:+ what +:+ "')").

(** The error [assert.equal] throws. *)
Definition assertion_error (message : string) : jserror :=
  JsError "AssertionError" (Some "ERR_ASSERTION") None message.

(* ================================================================== *)
(** ** Queries, models and the ORM *)
(* ================================================================== *)

(** The query dictionary ([IQuery]) with the keys the four methods set or
    read ([using_] is its key [using], a reserved word here).  A key that
    was never set holds [undefined]. *)
Record Query := {
  method : string;
  using_ : string;
  criteria : value;
  populates : value;
  newRecord : value;
  targetRecordIds : value;
  collectionAttrName : value;
  associatedIds : value;
  meta : value
}.

(** [{ method: m, using: identity }] *)
Definition new_query (m identity : string) : Query :=
  {| method := m; using_ := identity; criteria := VUndefined;
     populates := VUndefined; newRecord := VUndefined;
     targetRecordIds := VUndefined; collectionAttrName := VUndefined;
     associatedIds := VUndefined; meta := VUndefined |}.

Definition set_criteria (v : value) (q : Query) : Query :=
  {| method := method q; using_ := using_ q; criteria := v;
     populates := populates q; newRecord := newRecord q;
     targetRecordIds := targetRecordIds q;
     collectionAttrName := collectionAttrName q;
     associatedIds := associatedIds q; meta := meta q |}.

Definition set_populates (v : value) (q : Query) : Query :=
  {| method := method q; using_ := using_ q; criteria := criteria q;
     populates := v; newRecord := newRecord q;
     targetRecordIds := targetRecordIds q;
     collectionAttrName := collectionAttrName q;
     associatedIds := associatedIds q; meta := meta q |}.

Definition set_newRecord (v : value) (q : Query) : Query :=
  {| method := method q; using_ := using_ q; criteria := criteria q;
     populates := populates q; newRecord := v;
     targetRecordIds := targetRecordIds q;
     collectionAttrName := collectionAttrName q;
     associatedIds := associatedIds q; meta := meta q |}.

Definition set_targetRecordIds (v : value) (q : Query) : Query :=
  {| method := method q; using_ := using_ q; criteria := criteria q;
     populates := populates q; newRecord := newRecord q;
     targetRecordIds := v;
     collectionAttrName := collectionAttrName q;
     associatedIds := associatedIds q; meta := meta q |}.

Definition set_collectionAttrName (v : value) (q : Query) : Query :=
  {| method := method q; using_ := using_ q; criteria := criteria q;
     populates := populates q; newRecord := newRecord q;
     targetRecordIds := targetRecordIds q;
     collectionAttrName := v;
     associatedIds := associatedIds q; meta := meta q |}.

Definition set_associatedIds (v : value) (q : Query) : Query :=
  {| method := method q; using_ := using_ q; criteria := criteria q;
     populates := populates q; newRecord := newRecord q;
     targetRecordIds := targetRecordIds q;
     collectionAttrName := collectionAttrName q;
     associatedIds := v; meta := meta q |}.

Definition set_meta (v : value) (q : Query) : Query :=
  {| method := method q; using_ := using_ q; criteria := criteria q;
     populates := populates q; newRecord := newRecord q;
     targetRecordIds := targetRecordIds q;
     collectionAttrName := collectionAttrName q;
     associatedIds := associatedIds q; meta := v |}.

(** An entry of a model's [schema]: the definition of one attribute, with
    the properties the methods read.  [None] is a property that is not
    there ([_.has] is false, reading it gives [undefined]). *)
Record AttrDef := {
  collection : option string;
  referenceIdentity : option string;
  via : option string;
  on : option string;
  references : option string;
  columnName : option string
}.

(** A live model.  [schema] and [throughTable] keep their keys in order,
    because [_.each] visits them in order.  [junctionTable] and
    [throughTable] are [None] when the model's prototype has no such
    property; [junctionTable = Some b] carries the truthiness of the flag.
    [adapter_count] says whether the model's adapter has a [count]
    method. *)
Record Model := {
  identity : string;
  primaryKey : string;
  schema : list (string * AttrDef);
  junctionTable : option bool;
  throughTable : option (list (string * string));
  datastore : string;
  adapter_count : bool
}.

(** [obj.waterline]: the ORM, whose [collections] maps an identity to its
    live model. *)
Record Orm := { collections : gmap string Model }.

(* ================================================================== *)
(** ** Calls, processes and their runs *)
(* ================================================================== *)

(** What a forger leaves behind: the query forged in place, or the error
    it threw together with the state of the query at that moment. *)
Inductive forged :=
| Forged (q : Query)
| Failed (e : jserror) (q : Query).

(** The result of a call that returns or throws. *)
Inductive outcome (A : Type) :=
| Returned (a : A)
| Threw (e : jserror).
Arguments Returned {A} a.
Arguments Threw {A} e.

(** The calls that answer through a callback: the helper and adapter
    method the read methods use, and the model methods the compound
    methods call on a model (named by its identity). *)
Inductive call :=
| HelpFind (model : string) (q : Query)
| AdapterCount (model datastore : string) (q : Query)
| FindOne (model : string) (criteria meta : value)
| Create (model : string) (newRecord meta : value)
| Destroy (model : string) (criteria meta : value)
| CreateEach (model : string) (records meta : value)
| Update (model : string) (criteria valuesToSet meta : value).

(** The function a method hands to [parley], as a tree.
    [Done args] is [return done(...args)].  [Uncaught e] is an exception
    that leaves the function.  [Stage2 q k] is the call
    [forgeStageTwoQuery(q, orm)] inside its try block, [Stage3] the call to
    [forgeStageThreeQuery], [Process] the call to [processAllRecords];
    [Call c k] calls [c] with the callback [k]; [Each cs k] is
    [async.each] over the calls [cs] with the final callback [k]. *)
Inductive proc :=
| Done (args : list value)
| Uncaught (e : jserror)
| Stage2 (q : Query) (k : forged -> proc)
| Stage3 (q : Query) (modelIdentity : string) (k : outcome Query -> proc)
| Process (records meta : value) (modelIdentity : string) (k : outcome value -> proc)
| Call (c : call) (k : list value -> proc)
| Each (cs : list call) (k : value -> proc).

(** Everything outside the methods: what the forgers and
    [processAllRecords] do with their input, the arguments with which the
    [n]-th issued call invokes its callback, and, for the calls of one
    [async.each] (the first of which has number [base]), which of the
    pending callbacks fires at each [step]. *)
Record World := {
  stage_two : Query -> forged;
  stage_three : Query -> string -> outcome Query;
  process_records : value -> value -> string -> outcome value;
  respond : nat -> call -> list value;
  pick : nat -> nat -> nat
}.

(** What a trace records: the call of a forger or of [processAllRecords]
    with its result, the issue of a call, and the firing of the callback of
    a call with its arguments. *)
Inductive event :=
| EvStage2 (q : Query) (r : forged)
| EvStage3 (q : Query) (modelIdentity : string) (r : outcome Query)
| EvProcess (records meta : value) (modelIdentity : string) (r : outcome value)
| EvCall (c : call)
| EvBack (c : call) (args : list value).

(** How a run ends: [done] received [args], or an exception escaped. *)
Inductive final :=
| Finished (args : list value)
| Crashed (e : jserror).

(** The callbacks of the pending calls of an [async.each] fire one at a
    time, in the order the world picks.  The first one that reports an
    error makes [async.each] call its final callback with that error; when
    all have fired without error the final callback gets [null].  The
    result is the callbacks fired up to the call of the final callback and
    the argument of the final callback.  The calls still pending then are
    not cancelled: their callbacks are [late]. *)
Fixpoint drain (w : World) (base : nat) (fuel step : nat)
    (pending : list (nat * call)) : list event * value :=
  match fuel with
  | O => ([], VNull)
  | S fuel' =>
      match pending !! (pick w base step `mod` length pending) with
      | None => ([], VNull)
      | Some (ticket, c) =>
          let args := respond w ticket c in
          if truthy (arg 0 args) then ([EvBack c args], arg 0 args)
          else
            let '(evs, err) :=
              drain w base fuel' (S step)
                    (delete (pick w base step `mod` length pending) pending) in
            (EvBack c args :: evs, err)
      end
  end.

(** The callbacks of pending calls whose reports nothing waits for: each
    fires, in the order the world picks, whatever it reports. *)
Fixpoint fire (w : World) (base : nat) (fuel step : nat)
    (pending : list (nat * call)) : list event :=
  match fuel with
  | O => []
  | S fuel' =>
      match pending !! (pick w base step `mod` length pending) with
      | None => []
      | Some (ticket, c) =>
          EvBack c (respond w ticket c)
            :: fire w base fuel' (S step)
                    (delete (pick w base step `mod` length pending) pending)
      end
  end.

(** The callbacks of an [async.each] that fire after its final callback
    was called: those of the calls that were still pending when a callback
    reported the first error.  [async.each] calls its final callback once,
    so what these report, errors included, reaches nobody. *)
Fixpoint late (w : World) (base : nat) (fuel step : nat)
    (pending : list (nat * call)) : list event :=
  match fuel with
  | O => []
  | S fuel' =>
      match pending !! (pick w base step `mod` length pending) with
      | None => []
      | Some (ticket, c) =>
          if truthy (arg 0 (respond w ticket c)) then
            fire w base fuel' (S step)
                 (delete (pick w base step `mod` length pending) pending)
          else
            late w base fuel' (S step)
                 (delete (pick w base step `mod` length pending) pending)
      end
  end.

(** The calls of an [async.each], numbered from [base]. *)
Definition tickets (base : nat) (cs : list call) : list (nat * call) :=
  imap (fun i c => (base + i, c)) cs.

(** [async.each(cs, iteratee, k)] over calls that answer asynchronously:
    every call is issued, in the order of the array, before any callback
    fires. *)
Definition run_each (w : World) (base : nat) (cs : list call)
    : list event * value :=
  let '(evs, err) := drain w base (length cs) 0 (tickets base cs) in
  (map EvCall cs ++ evs, err).

(** The callbacks of [async.each(cs, iteratee, k)] that fire after [k] was
    called. *)
Definition late_each (w : World) (base : nat) (cs : list call)
    : list event :=
  late w base (length cs) 0 (tickets base cs).

(** The run of a process in a world, from the [n]-th call on: the trace
    and the end. *)
Fixpoint run (w : World) (n : nat) (p : proc) : list event * final :=
  match p with
  | Done args => ([], Finished args)
  | Uncaught e => ([], Crashed e)
  | Stage2 q k =>
      let r := stage_two w q in
      let '(tr, f) := run w n (k r) in (EvStage2 q r :: tr, f)
  | Stage3 q id k =>
      let r := stage_three w q id in
      let '(tr, f) := run w n (k r) in (EvStage3 q id r :: tr, f)
  | Process records m id k =>
      let r := process_records w records m id in
      let '(tr, f) := run w n (k r) in (EvProcess records m id r :: tr, f)
  | Call c k =>
      let args := respond w n c in
      let '(tr, f) := run w (S n) (k args) in
      (EvCall c :: EvBack c args :: tr, f)
  | Each cs k =>
      let '(evs, err) := run_each w n cs in
      let '(tr, f) := run w (n + length cs) (k err) in
      (evs ++ tr ++ late_each w n cs, f)
  end.

(** A world with another order of callbacks. *)
Definition with_pick (w : World) (schedule : nat -> nat -> nat) : World :=
  {| stage_two := stage_two w;
     stage_three := stage_three w;
     process_records := process_records w;
     respond := respond w;
     pick := schedule |}.

(** The callback of a numbered call, as the world answers it. *)
Definition back (w : World) (tc : nat * call) : event :=
  EvBack tc.2 (respond w tc.1 tc.2).

(** The calls a trace issued. *)
Definition issued (tr : list event) : list call :=
  omap (fun e => match e with EvCall c => Some c | _ => None end) tr.

(** Whether a trace reached stage-3 forging. *)
Definition reached_stage_three (tr : list event) : bool :=
  existsb (fun e => match e with EvStage3 _ _ _ => true | _ => false end) tr.

(** The [meta] a call carries. *)
Definition call_meta (c : call) : value :=
  match c with
  | HelpFind _ q | AdapterCount _ _ q => meta q
  | FindOne _ _ m | Create _ _ m | Destroy _ _ m | CreateEach _ _ m
  | Update _ _ _ m => m
  end.

(** Whether the [meta] of a call has [skipAllLifecycleCallbacks: true]. *)
Definition skips_lifecycle_callbacks (c : call) : bool :=
  match get_prop (call_meta c) "skipAllLifecycleCallbacks" with
  | Some (VBool true) => true
  | _ => false
  end.

(** What a method hands to [parley]: the function to run, the explicit
    callback its arguments held, if any, and the query it built.  With a
    function as [explicitCbMaybe], [parley] runs [handler] at once and the
    arguments of [done] go to that function; without one it returns a
    Deferred that runs [handler] when it is executed. *)
Record Parley := {
  handler : proc;
  explicitCbMaybe : value;
  _wlQueryInfo : Query
}.

(** A method reads its arguments from [arguments], which holds every
    actual argument of the static [execute], the model [obj] first. *)
Definition arguments_of (obj : Model) (rest : list value) : list value :=
  VModel (identity obj) :: rest.

(* ================================================================== *)
(** ** find *)
(* ================================================================== *)

Module MethodFind.

Definition handleVariadicUsage (query : Query) (args : list value)
    : Query * value :=
  if (1 <=? length args)%nat && isFunction (arg 0 args) then
    (set_meta (arg 1 args) query, arg 0 args)
  else if (2 <=? length args)%nat && isFunction (arg 1 args) then
    (set_meta (arg 2 args) (set_criteria (arg 0 args) query), arg 1 args)
  else
    (set_meta (arg 3 args)
       (set_populates (arg 1 args) (set_criteria (arg 0 args) query)),
     arg 2 args).

(** The function handed to [parley].  Neither lifecycle callback exists
    yet: both self-calling functions go on with what they were given. *)
Definition body (WLModel : Model) (query : Query) : proc :=
  let modelIdentity := identity WLModel in
  Stage2 query (fun r =>
    match r with
    | Failed e _ =>
        if has_code e "E_INVALID_CRITERIA" then
          Done [VErr (usage_error
            ("Invalid criteria." +:+ nl +:+ "Details:" +:+ nl +:+ details_line e))]
        else if has_code e "E_INVALID_POPULATES" then
          Done [VErr (usage_error
            ("Invalid populate(s)." +:+ nl +:+ "Details:" +:+ nl +:+ details_line e))]
        else if has_code e "E_NOOP" then
          Done [VUndefined; VArr []]
        else Done [VErr e]
    | Forged query =>
        Call (HelpFind modelIdentity query) (fun args =>
          let err := arg 0 args in
          let populatedRecords := arg 1 args in
          if truthy err then Done [err]
          else
            Process populatedRecords (meta query) modelIdentity (fun r =>
              match r with
              | Threw e => Done [VErr e]
              | Returned populatedRecords => Done [VUndefined; populatedRecords]
              end))
    end).

Definition execute (obj : Model) (rest : list value) : Parley :=
  let '(query, explicitCbMaybe) :=
    handleVariadicUsage (new_query "find" (identity obj)) (arguments_of obj rest) in
  {| handler := body obj query;
     explicitCbMaybe := explicitCbMaybe;
     _wlQueryInfo := query |}.

End MethodFind.

(* ================================================================== *)
(** ** count *)
(* ================================================================== *)

Module MethodCount.

(** [query[k] = v], for a key the record [Query] has a field for.
    [None]: the record has no field for the key, or the key is [method] or
    [using] and the value is no string; the query that results is outside
    what [Query] holds. *)
Definition set_key (k : string) (v : value) (q : Query) : option Query :=
  if String.eqb k "method" then
    match v with
    | VStr m =>
        Some {| method := m; using_ := using_ q; criteria := criteria q;
                populates := populates q; newRecord := newRecord q;
                targetRecordIds := targetRecordIds q;
                collectionAttrName := collectionAttrName q;
                associatedIds := associatedIds q; meta := meta q |}
    | _ => None
    end
  else if String.eqb k "using" then
    match v with
    | VStr u =>
        Some {| method := method q; using_ := u; criteria := criteria q;
                populates := populates q; newRecord := newRecord q;
                targetRecordIds := targetRecordIds q;
                collectionAttrName := collectionAttrName q;
                associatedIds := associatedIds q; meta := meta q |}
    | _ => None
    end
  else if String.eqb k "criteria" then Some (set_criteria v q)
  else if String.eqb k "populates" then Some (set_populates v q)
  else if String.eqb k "newRecord" then Some (set_newRecord v q)
  else if String.eqb k "targetRecordIds" then Some (set_targetRecordIds v q)
  else if String.eqb k "collectionAttrName" then Some (set_collectionAttrName v q)
  else if String.eqb k "associatedIds" then Some (set_associatedIds v q)
  else if String.eqb k "meta" then Some (set_meta v q)
  else None.

(** [_.extend(query, moreQueryKeys)]: every own enumerable property of the
    source is written over the query, [method] and [using] included, in
    the order of the source.  A number, a boolean and a function have
    none; an array and a string have their indices.  [None]: a key or a
    value [set_key] has no place for, or a source (an error, a model)
    whose own properties the values here do not record. *)
Definition extend_query (query : Query) (more : value) : option Query :=
  match more with
  | VErr _ | VModel _ | VAdapterErr _ _ _ => None
  | _ =>
      foldl (fun acc kv => q ← acc; set_key kv.1 kv.2 q)
            (Some query) (own_props more)
  end.

Definition handleVariadicUsage (query : Query) (args : list value)
    : option (Query * value) :=
  if (1 <=? length args)%nat && isFunction (arg 0 args) then
    let query := set_meta (arg 1 args) query in
    query ← (if truthy (arg 2 args) then extend_query query (arg 2 args)
             else Some query);
    Some (query, arg 0 args)
  else
    let query := set_meta (arg 2 args) (set_criteria (arg 0 args) query) in
    query ← (if truthy (arg 3 args) then extend_query query (arg 3 args)
             else Some query);
    Some (query, arg 1 args).

Definition body (WLModel : Model) (query : Query) : proc :=
  let modelIdentity := identity WLModel in
  Stage2 query (fun r =>
    match r with
    | Failed e _ =>
        if has_code e "E_INVALID_CRITERIA" || has_code e "E_INVALID_META" then
          Done [VErr e]
        else if has_code e "E_NOOP" then
          Done [VUndefined; VNum 0]
        else Done [VErr e]
    | Forged query =>
        Stage3 query modelIdentity (fun r =>
          match r with
          | Threw e => Done [VErr e]
          | Returned query =>
              if negb (adapter_count WLModel) then
                Done [VErr (new_Error
                  ("The adapter used by this model (`" +:+ modelIdentity +:+
                   "`) doesn't support the `" +:+ method query +:+ "` method."))]
              else
                Call (AdapterCount modelIdentity (datastore WLModel) query) (fun args =>
                  let err := arg 0 args in
                  let numRecords := arg 1 args in
                  if truthy err then Done [VAdapterErr err "count" modelIdentity]
                  else Done [VUndefined; numRecords])
          end)
    end).

(** [None] when the query the arguments build is outside what [Query]
    holds (see [extend_query]). *)
Definition execute (obj : Model) (rest : list value) : option Parley :=
  built ← handleVariadicUsage (new_query "count" (identity obj))
                              (arguments_of obj rest);
  Some {| handler := body obj built.1;
          explicitCbMaybe := built.2;
          _wlQueryInfo := built.1 |}.

End MethodCount.

(* ================================================================== *)
(** ** findOrCreate *)
(* ================================================================== *)

Module MethodFindOrCreate.

Definition handleVariadicUsage (query : Query) (args : list value)
    : Query * value :=
  (set_meta (arg 3 args)
     (set_newRecord (arg 1 args) (set_criteria (arg 0 args) query)),
   arg 2 args).

Definition STD_NOOP_CRITERIA : value :=
  VDict [("where", VDict [("or", VArr [])])].

(** [delete query.criteria.limit; delete query.criteria.skip;
    delete query.criteria.sort] *)
Definition delete_paging (c : value) : option value :=
  c1 ← delete_prop c "limit";
  c2 ← delete_prop c1 "skip";
  delete_prop c2 "sort".

(** [_.extend({}, query.meta || {}, { fetch: true })] *)
Definition modifiedMeta (query : Query) : value :=
  VDict (dict_extend (dict_extend [] (own_props (or_empty (meta query))))
                     [("fetch", VBool true)]).

(** The callback of [findOne]. *)
Definition _afterPotentiallyFinding (WLModel : Model) (query : Query)
    (args : list value) : proc :=
  let err := arg 0 args in
  let foundRecord := arg 1 args in
  if truthy err then Done [err]
  else if truthy foundRecord then Done [VUndefined; foundRecord; VBool false]
  else
    let pkAttrName := primaryKey WLModel in
    match get_prop (newRecord query) pkAttrName with
    | None => Uncaught (type_error pkAttrName)
    | Some pkValue =>
        let wasPKValueCoercedToNull := isNull pkValue in
        let query :=
          if wasPKValueCoercedToNull then
            set_newRecord
              (default (newRecord query) (delete_prop (newRecord query) pkAttrName))
              query
          else query in
        Call (Create (identity WLModel) (newRecord query) (modifiedMeta query))
          (fun args =>
             let err := arg 0 args in
             let createdRecord := arg 1 args in
             if truthy err then Done [err]
             else Done [VUndefined; createdRecord; VBool true])
    end.

(** The code after the try block. *)
Definition find_then_create (WLModel : Model) (query : Query) : proc :=
  match delete_paging (criteria query) with
  | None => Uncaught (type_error "limit")
  | Some c =>
      let query := set_criteria c query in
      Call (FindOne (identity WLModel) (criteria query) (meta query))
           (_afterPotentiallyFinding WLModel query)
  end.

Definition body (WLModel : Model) (query : Query) : proc :=
  Stage2 query (fun r =>
    match r with
    | Failed e query =>
        if has_code e "E_INVALID_CRITERIA" then
          Done [VErr (usage_error
            ("Invalid criteria." +:+ nl +:+ "Details:" +:+ nl +:+ details_line e))]
        else if has_code e "E_INVALID_NEW_RECORDS" then
          Done [VErr (usage_error
            ("Invalid new record(s)." +:+ nl +:+ "Details:" +:+ nl +:+ details_line e))]
        else if has_code e "E_NOOP" then
          find_then_create WLModel (set_criteria STD_NOOP_CRITERIA query)
        else Done [VErr e]
    | Forged query => find_then_create WLModel query
    end).

Definition execute (obj : Model) (rest : list value) : Parley :=
  let '(query, explicitCbMaybe) :=
    handleVariadicUsage (new_query "findOrCreate" (identity obj))
                        (arguments_of obj rest) in
  {| handler := body obj query;
     explicitCbMaybe := explicitCbMaybe;
     _wlQueryInfo := query |}.

(** The query with which the code after the try block runs, when the try
    block lets it run: the forged query, or, after [E_NOOP], the query as
    the forger left it with its criteria replaced. *)
Definition after_forging (r : forged) : option Query :=
  match r with
  | Forged query => Some query
  | Failed e query =>
      if has_code e "E_NOOP"
      then Some (set_criteria STD_NOOP_CRITERIA query)
      else None
  end.

End MethodFindOrCreate.

(* ================================================================== *)
(** ** replaceCollection *)
(* ================================================================== *)

Module MethodReplaceCollection.

(** [_handleVariadicUsage]: the first two arguments have one meaning;
    the third is taken as [associatedIds] whenever it is not
    [undefined]. *)
Definition handleVariadicUsage (query : Query) (args : list value)
    : Query * value :=
  let query := set_targetRecordIds (arg 0 args) query in
  let query := set_collectionAttrName (arg 1 args) query in
  let is3rdArgArray := negb (isUndefined (arg 2 args)) in
  let '(query, explicitCbMaybe, _meta) :=
    if is3rdArgArray then
      (set_associatedIds (arg 2 args) query, arg 3 args, arg 4 args)
    else
      (query, arg 2 args, arg 3 args) in
  let query :=
    if negb (isUndefined _meta) then set_meta _meta query else query in
  (query, explicitCbMaybe).

(** [s.toLowerCase() == s], the test of the [assert.equal] calls. *)
Definition is_normalized (s : string) : bool :=
  String.eqb (toLowerCase s) s.

Definition not_normalized (what s : string) : jserror :=
  assertion_error
    ("`" +:+ what +:+
     "` (identity) should have already been normalized before getting here!  But it was not: "
     +:+ s).

Definition no_prototype : jserror :=
  JsError "TypeError" None None "Cannot convert undefined or null to object".

(** The name of an attribute as a property key.  Stage 2 lets a
    [collectionAttrName] through only when it is a string; a value that is
    no string is taken to name nothing (its string form, under which
    JavaScript would look, is not modelled). *)
Definition property_name (v : value) : option string :=
  match v with VStr s => Some s | _ => None end.

(** The names every object inherits from [Object.prototype]. *)
Definition inherited_names : list string :=
  ["constructor"; "__defineGetter__"; "__defineSetter__"; "hasOwnProperty";
   "__lookupGetter__"; "__lookupSetter__"; "isPrototypeOf";
   "propertyIsEnumerable"; "toString"; "valueOf"; "__proto__";
   "toLocaleString"].

(** What an inherited name reads as on a schema: a function, or the
    prototype itself, on which none of the properties of an attribute
    definition is there. *)
Definition inherited_value : AttrDef :=
  {| collection := None; referenceIdentity := None; via := None;
     on := None; references := None; columnName := None |}.

(** [WLModel.schema[name]]: the entry of the schema under the name; for a
    name that is no key of the schema, what the schema object inherits
    under it, if anything. *)
Definition schema_entry (name : value) (WLModel : Model) : option AttrDef :=
  s ← property_name name;
  match assoc s (schema WLModel) with
  | Some wlsAttrDef => Some wlsAttrDef
  | None =>
      if existsb (String.eqb s) inherited_names then Some inherited_value
      else None
  end.

(** [_.has(proto, 'junctionTable') && WLChild.junctionTable] *)
Definition is_junction (WLChild : Model) : bool :=
  match junctionTable WLChild with
  | Some flag => flag
  | None => false
  end.

(** [_.has(proto, 'throughTable') && _.keys(WLChild.throughTable).length] *)
Definition is_through (WLChild : Model) : bool :=
  match throughTable WLChild with
  | Some mapping => negb (Nat.eqb (length mapping) 0)
  | None => false
  end.

(** How the lookup of the association ends: with an exception no try
    block catches, with [proceed(e)], or with the parent model, the
    schema entry, the child model and the [manyToMany] flag. *)
Inductive resolution :=
| Throws (e : jserror)
| Proceeds (e : jserror)
| Resolved (WLModel : Model) (schemaDef : AttrDef) (WLChild : Model)
           (manyToMany : bool).

Definition resolve (orm : Orm) (query : Query) : resolution :=
  let WLModel := collections orm !! using_ query in
  if negb (is_normalized (using_ query)) then
    Proceeds (not_normalized "query.using" (using_ query))
  else
  match WLModel with
  | None => Throws (type_error "schema")
  | Some WLModel =>
  match schema_entry (collectionAttrName query) WLModel with
  | None => Throws (type_error "collection")
  | Some schemaDef =>
  let WLChild := c ← collection schemaDef; collections orm !! c in
  match collection schemaDef with
  | None => Proceeds (type_error "toLowerCase")
  | Some c =>
  if negb (is_normalized c) then
    Proceeds (not_normalized "schemaDef.collection" c)
  else
  match referenceIdentity schemaDef with
  | None => Proceeds (type_error "toLowerCase")
  | Some r =>
  if negb (is_normalized r) then
    Proceeds (not_normalized "schemaDef.referenceIdentity" r)
  else
  match WLChild with
  | None => Proceeds no_prototype
  | Some WLChild =>
  if negb (is_normalized (identity WLChild)) then
    Proceeds (not_normalized "Object.getPrototypeOf(WLChild).identity"
                             (identity WLChild))
  else
  let manyToMany := false in
  let '(manyToMany, WLChild) :=
    if negb (String.eqb r (identity WLChild))
    then (true, collections orm !! r)
    else (manyToMany, Some WLChild) in
  match WLChild with
  | None => Throws no_prototype
  | Some WLChild =>
  let manyToMany := if is_junction WLChild then true else manyToMany in
  let manyToMany := if is_through WLChild then true else manyToMany in
  Resolved WLModel schemaDef WLChild manyToMany
  end end end end end end.

(** [_.extend({}, query.meta || {}, { skipAllLifecycleCallbacks: true })] *)
Definition modifiedMeta (query : Query) : dict :=
  dict_extend (dict_extend [] (own_props (or_empty (meta query))))
              [("skipAllLifecycleCallbacks", VBool true)].

(** The callback of the self-calling function:
    [if (err) { return done(err); } return done();] *)
Definition proceed (err : value) : proc :=
  if truthy err then Done [err] else Done [].

(** [_.has(wlsAttrDef, 'columnName') && wlsAttrDef.columnName === on] *)
Definition column_is (wlsAttrDef : AttrDef) (on_ : option string) : bool :=
  match columnName wlsAttrDef, on_ with
  | Some c, Some o => String.eqb c o
  | _, _ => false
  end.

(** [_.has(wlsAttrDef, 'columnName') && wlsAttrDef.columnName !== on] *)
Definition column_is_not (wlsAttrDef : AttrDef) (on_ : option string) : bool :=
  match columnName wlsAttrDef, on_ with
  | Some c, Some o => negb (String.eqb c o)
  | Some _, None => true
  | None, _ => false
  end.

(** The two [_.each] loops over the schema of a junction table: the
    last attribute with [references] whose column passes the test. *)
Definition junction_reference (test : AttrDef -> option string -> bool)
    (schemaDef : AttrDef) (WLChild : Model) : option string :=
  foldl (fun reference kd =>
           if negb (bool_decide (is_Some (references kd.2))) then reference
           else if test kd.2 (on schemaDef) then Some kd.1
           else reference)
        None (schema WLChild).

(** [WLModel.identity + '.' + query.collectionAttrName] *)
Definition through_key (WLModel : Model) (query : Query) : string :=
  identity WLModel +:+ "." +:+
  default "undefined" (property_name (collectionAttrName query)).

(** The pair [(parentReference, childReference)]. *)
Definition find_references (WLModel : Model) (schemaDef : AttrDef)
    (WLChild : Model) (query : Query) : option string * option string :=
  let '(parentReference, childReference) :=
    if is_junction WLChild then
      (junction_reference column_is schemaDef WLChild, None)
    else
      match throughTable WLChild with
      | Some mapping =>
          (foldl (fun parentReference kr =>
                    if negb (String.eqb kr.1 (through_key WLModel query))
                    then Some kr.2 else parentReference)
                 None mapping,
           assoc (through_key WLModel query) mapping)
      | None => (None, None)
      end in
  let childReference :=
    if is_junction WLChild
    then junction_reference column_is_not schemaDef WLChild
    else childReference in
  (parentReference, childReference).

(** One record per pair of a target id and an associated id. *)
Definition insertRecords (parentReference childReference : option string)
    (query : Query) : list value :=
  flat_map (fun targetId =>
    map (fun associatedId =>
           VDict (dict_set (key_of childReference) associatedId
                    (dict_set (key_of parentReference) targetId [])))
        (each_items (associatedIds query)))
    (each_items (targetRecordIds query)).

Definition expand_manyToMany (WLModel : Model) (schemaDef : AttrDef)
    (WLChild : Model) (query : Query) : proc :=
  let '(parentReference, childReference) :=
    find_references WLModel schemaDef WLChild query in
  let criteriaOfDestruction :=
    VDict [("where",
            VDict [(key_of parentReference,
                    VDict [("in", targetRecordIds query)])])] in
  let modifiedMeta :=
    VDict (dict_set "fetch" (VBool false) (modifiedMeta query)) in
  let insertRecords := insertRecords parentReference childReference query in
  Call (Destroy (identity WLChild) criteriaOfDestruction modifiedMeta)
    (fun args =>
       let err := arg 0 args in
       if truthy err then proceed err
       else
         match length_is_zero (associatedIds query) with
         | None => Uncaught (type_error "length")
         | Some true => proceed VNull
         | Some false =>
             Call (CreateEach (identity WLChild) (VArr insertRecords) modifiedMeta)
                  (fun args => proceed (arg 0 args))
         end).

(** One [{ criteria, valuesToUpdate }] per pair of a target id and an
    associated id. *)
Definition updateQueries (schemaDef : AttrDef) (WLChild : Model)
    (query : Query) : list (value * value) :=
  flat_map (fun targetId =>
    map (fun associatedId =>
           (VDict [("where", VDict [(primaryKey WLChild, associatedId)])],
            VDict [(key_of (via schemaDef), targetId)]))
        (each_items (associatedIds query)))
    (each_items (targetRecordIds query)).

Definition nullOutCriteria (schemaDef : AttrDef) (query : Query) : value :=
  VDict [("where",
          VDict [(key_of (via schemaDef),
                  VDict [("in", targetRecordIds query)])])].

Definition expand_oneToMany (schemaDef : AttrDef) (WLChild : Model)
    (query : Query) : proc :=
  let valuesToUpdate := VDict [(key_of (via schemaDef), VNull)] in
  let modifiedMeta := VDict (modifiedMeta query) in
  Call (Update (identity WLChild) (nullOutCriteria schemaDef query)
               valuesToUpdate modifiedMeta)
    (fun args =>
       let err := arg 0 args in
       if truthy err then proceed err
       else
         Each (map (fun updateQuery =>
                      Update (identity WLChild) updateQuery.1 updateQuery.2
                             modifiedMeta)
                   (updateQueries schemaDef WLChild query))
              (fun err => if truthy err then proceed err else proceed VNull)).

Definition body (orm : Orm) (query : Query) : proc :=
  Stage2 query (fun r =>
    match r with
    | Failed e _ =>
        if has_code e "E_INVALID_TARGET_RECORD_IDS" then
          Done [VErr (usage_error
            ("The target record ids (i.e. first argument) passed to `.replaceCollection()` " +:+
             "should be the ID (or IDs) of target records whose collection will be modified." +:+ nl +:+
             "Details:" +:+ nl +:+ details_line e))]
        else if has_code e "E_INVALID_COLLECTION_ATTR_NAME" then
          Done [VErr (usage_error
            ("The collection attr name (i.e. second argument) to `.replaceCollection()` should " +:+
             "be the name of a collection association from this model." +:+ nl +:+
             "Details:" +:+ nl +:+ details_line e))]
        else if has_code e "E_INVALID_ASSOCIATED_IDS" then
          Done [VErr (usage_error
            ("The associated ids (i.e. using `.members()`, or the third argument) passed to `.replaceCollection()` should be " +:+
             "the ID (or IDs) of associated records to use." +:+ nl +:+
             "Details:" +:+ nl +:+ details_line e))]
        else if has_code e "E_NOOP" then Done []
        else if has_code e "E_INVALID_META" then Done [VErr e]
        else Done [VErr e]
    | Forged query =>
        match resolve orm query with
        | Throws e => Uncaught e
        | Proceeds e => Done [VErr e]
        | Resolved WLModel schemaDef WLChild manyToMany =>
            if manyToMany
            then expand_manyToMany WLModel schemaDef WLChild query
            else expand_oneToMany schemaDef WLChild query
        end
    end).

Definition execute (obj : Model) (waterline : Orm) (rest : list value)
    : Parley :=
  let '(query, explicitCbMaybe) :=
    handleVariadicUsage (new_query "replaceCollection" (identity obj))
                        (arguments_of obj rest) in
  {| handler := body waterline query;
     explicitCbMaybe := explicitCbMaybe;
     _wlQueryInfo := query |}.

End MethodReplaceCollection.

(** The per-pair updates of the one-to-many expansion. *)
Definition pair_updates (schemaDef : AttrDef) (WLChild : Model) (q : Query)
    : list call :=
  map (fun updateQuery =>
         Update (identity WLChild) updateQuery.1 updateQuery.2
                (VDict (MethodReplaceCollection.modifiedMeta q)))
      (MethodReplaceCollection.updateQueries schemaDef WLChild q).

(** The update that nulls out the foreign key. *)
Definition null_out (schemaDef : AttrDef) (WLChild : Model) (q : Query)
    : call :=
  Update (identity WLChild)
         (MethodReplaceCollection.nullOutCriteria schemaDef q)
         (VDict [(key_of (via schemaDef), VNull)])
         (VDict (MethodReplaceCollection.modifiedMeta q)).

(* ================================================================== *)
(** ** The stage-2 forger *)
(* ================================================================== *)

Module StageTwo.

(** Modelled from the spec: among the methods of the fixed operation
    vocabulary, those that take a criteria, and the collection methods. *)
Definition uses_criteria (m : string) : bool :=
  existsb (String.eqb m)
    ["find"; "findOne"; "count"; "sum"; "avg"; "update"; "destroy";
     "findOrCreate"; "stream"].

Definition is_collection_method (m : string) : bool :=
  existsb (String.eqb m)
    ["addToCollection"; "removeFromCollection"; "replaceCollection"].

(** Modelled from the spec: the first key of a [where] clause, at any
    depth below [and] and [or], that is not an attribute of the model (a
    non-existent attribute name). *)
Fixpoint unknown_attribute (attrs : list string) (w : value) {struct w}
    : option string :=
  match w with
  | VDict props =>
      (fix clause (ps : list (string * value)) : option string :=
         match ps with
         | [] => None
         | (k, v) :: ps' =>
             let here :=
               if String.eqb k "and" || String.eqb k "or" then
                 match v with
                 | VArr l =>
                     (fix first (l : list value) : option string :=
                        match l with
                        | [] => None
                        | x :: l' =>
                            match unknown_attribute attrs x with
                            | Some a => Some a
                            | None => first l'
                            end
                        end) l
                 | _ => None
                 end
               else if existsb (String.eqb k) attrs then None
               else Some k in
             match here with
             | Some a => Some a
             | None => clause ps'
             end
         end) props
  | _ => None
  end.

(** Modelled from the spec: a [where] clause that is provably
    unsatisfiable.  It has an [or] all of whose disjuncts are such (an
    empty [or] is the base case), an [and] one of whose conjuncts is such,
    or an [in] against the empty list. *)
Fixpoint unsatisfiable (w : value) {struct w} : bool :=
  match w with
  | VDict props =>
      (fix clause (ps : list (string * value)) : bool :=
         match ps with
         | [] => false
         | (k, v) :: ps' =>
             (if String.eqb k "or" then
                match v with
                | VArr l =>
                    (fix all (l : list value) : bool :=
                       match l with
                       | [] => true
                       | x :: l' => unsatisfiable x && all l'
                       end) l
                | _ => false
                end
              else if String.eqb k "and" then
                match v with
                | VArr l =>
                    (fix any (l : list value) : bool :=
                       match l with
                       | [] => false
                       | x :: l' => unsatisfiable x || any l'
                       end) l
                | _ => false
                end
              else
                match v with
                | VDict [("in", VArr [])] => true
                | _ => false
                end)
             || clause ps'
         end) props
  | _ => false
  end.

(** Modelled from the spec: the [where] clause of a criteria, if it has
    one. *)
Definition where_of (c : value) : option value :=
  match c with
  | VDict d => dict_get "where" d
  | _ => None
  end.

(** Modelled from the spec: the tagged errors of the forger, with a [code]
    and a [details] string, and the canonical no-op criteria. *)
Definition E_INVALID_CRITERIA (attr : string) : jserror :=
  JsError "UsageError" (Some "E_INVALID_CRITERIA")
          (Some ("Unrecognized attribute in `where`: " +:+ attr))
          "Invalid criteria.".

Definition E_NOOP (details : string) : jserror :=
  JsError "UsageError" (Some "E_NOOP") (Some details) "No-op.".

Definition NOOP_CRITERIA : value :=
  VDict [("where", VDict [("or", VArr [])])].

(** Modelled from the spec: [forgeStageTwoQuery]
    (lib/waterline/utils/query/forge-stage-two-query), which the methods
    require and which is not among the sources.  Of the rules of the
    stage-2 forger these three are modelled, each with the precedence
    its sentence gives it:
    - a collection method whose [targetRecordIds] is an empty list is a
      no-op ([E_NOOP]);
    - a [where] clause that names a non-existent attribute fails with
      [E_INVALID_CRITERIA], its [details] naming the attribute;
    - a [where] clause that is provably unsatisfiable (an empty [or], an
      [in] against an empty set) is normalized to the canonical no-op
      criteria and reported as [E_NOOP].
    Every other rule (operators and value types, populates, new records,
    malformed ids, the collection attribute name, meta, and the
    normalization of a query that passes) is left to [rest]. *)
Definition forgeStageTwoQuery (rest : Query -> forged) (orm : Orm)
    (query : Query) : forged :=
  if is_collection_method (method query) then
    match targetRecordIds query with
    | VArr [] => Failed (E_NOOP "No target record ids.") query
    | _ => rest query
    end
  else if uses_criteria (method query) then
    match collections orm !! using_ query, where_of (criteria query) with
    | Some WLModel, Some w =>
        match unknown_attribute (schema WLModel).*1 w with
        | Some attr => Failed (E_INVALID_CRITERIA attr) query
        | None =>
            if unsatisfiable w then
              Failed (E_NOOP "The `where` clause matches nothing.")
                     (set_criteria NOOP_CRITERIA query)
            else rest query
        end
    | _, _ => rest query
    end
  else rest query.

End StageTwo.

(* ================================================================== *)
(** ** A small ontology and two worlds *)
(* ================================================================== *)

Module Zoo.

Definition plain : AttrDef :=
  {| collection := None; referenceIdentity := None; via := None;
     on := None; references := None; columnName := None |}.

Definition foreign_key (target column : string) : AttrDef :=
  {| collection := None; referenceIdentity := None; via := None;
     on := None; references := Some target; columnName := Some column |}.

(** [owners]: many-to-many with [owner], through the join table
    [pet_owners]. *)
Definition owners : AttrDef :=
  {| collection := Some "pet_owners"; referenceIdentity := Some "pet_owners";
     via := Some "pet_owners"; on := Some "pet_owners";
     references := Some "pet_owners"; columnName := None |}.

(** [toys]: one-to-many, each toy pointing back with [pet]. *)
Definition toys : AttrDef :=
  {| collection := Some "toy"; referenceIdentity := Some "toy";
     via := Some "pet"; on := Some "pet";
     references := Some "toy"; columnName := None |}.

(** [vets]: an entry that names [vet] as its collection and [visit] as
    the model it references; neither is a join or a through table. *)
Definition vets : AttrDef :=
  {| collection := Some "vet"; referenceIdentity := Some "visit";
     via := Some "pet"; on := Some "pet";
     references := Some "visit"; columnName := None |}.

Definition model (id : string) (attrs : list (string * AttrDef)) : Model :=
  {| identity := id; primaryKey := "id"; schema := attrs;
     junctionTable := None; throughTable := None;
     datastore := "default"; adapter_count := true |}.

Definition Pet : Model :=
  model "pet" [("id", plain); ("name", plain);
               ("owners", owners); ("toys", toys); ("vets", vets)].

Definition Owner : Model :=
  model "owner" [("id", plain); ("name", plain)].

Definition Toy : Model :=
  model "toy" [("id", plain); ("pet", foreign_key "pet" "pet")].

Definition Vet : Model := model "vet" [("id", plain)].

Definition Visit : Model :=
  model "visit" [("id", plain); ("pet", foreign_key "pet" "pet");
                 ("vet", foreign_key "vet" "vet")].

Definition PetOwners : Model :=
  {| identity := "pet_owners"; primaryKey := "id";
     schema := [("id", plain);
                ("pet_owners", foreign_key "pet" "pet_owners");
                ("owner_pets", foreign_key "owner" "owner_pets")];
     junctionTable := Some true; throughTable := None;
     datastore := "default"; adapter_count := true |}.

Definition orm : Orm :=
  {| collections :=
       list_to_map [("pet", Pet); ("owner", Owner); ("toy", Toy);
                    ("vet", Vet); ("visit", Visit);
                    ("pet_owners", PetOwners)] |}.

(** A world in which every query passes both forgers unchanged, every
    record passes [processAllRecords], every call calls back without an
    error and without a result, and callbacks fire in the order of the
    calls. *)
Definition quiet : World :=
  {| stage_two := Forged;
     stage_three := fun q _ => Returned q;
     process_records := fun records _ _ => Returned records;
     respond := fun _ _ => [];
     pick := fun _ _ => 0 |}.

(** The quiet world with the stage-2 rules of [StageTwo]. *)
Definition strict : World :=
  {| stage_two := StageTwo.forgeStageTwoQuery Forged orm;
     stage_three := fun q _ => Returned q;
     process_records := fun records _ _ => Returned records;
     respond := fun _ _ => [];
     pick := fun _ _ => 0 |}.

(** The quiet world in which [findOne] finds the pet Rex. *)
Definition rex : value := VDict [("id", VNum 7); ("name", VStr "Rex")].

Definition finding : World :=
  {| stage_two := Forged;
     stage_three := fun q _ => Returned q;
     process_records := fun records _ _ => Returned records;
     respond := fun _ c =>
                  match c with
                  | FindOne _ _ _ => [VUndefined; rex]
                  | _ => []
                  end;
     pick := fun _ _ => 0 |}.

(** [Pet.replaceCollection([1,2], 'owners', [9])], as a query. *)
Definition replace_owners : Query :=
  set_associatedIds (VArr [VNum 9])
    (set_collectionAttrName (VStr "owners")
       (set_targetRecordIds (VArr [VNum 1; VNum 2])
          (new_query "replaceCollection" "pet"))).

(** [Pet.replaceCollection([1,2], 'toys', [5,6])], as a query. *)
Definition replace_toys : Query :=
  set_associatedIds (VArr [VNum 5; VNum 6])
    (set_collectionAttrName (VStr "toys")
       (set_targetRecordIds (VArr [VNum 1; VNum 2])
          (new_query "replaceCollection" "pet"))).

(** [Pet.replaceCollection([1], 'vets', [3])], as a query. *)
Definition replace_vets : Query :=
  set_associatedIds (VArr [VNum 3])
    (set_collectionAttrName (VStr "vets")
       (set_targetRecordIds (VArr [VNum 1])
          (new_query "replaceCollection" "pet"))).

(** [Pet.replaceCollection([], 'owners', [9])], as a query. *)
Definition replace_for_nobody : Query :=
  set_targetRecordIds (VArr []) replace_owners.

(** [Pet.replaceCollection([1,2], 'owners', [])], as a query. *)
Definition clear_owners : Query :=
  set_associatedIds (VArr []) replace_owners.

(** [replace_owners] with a caller's [meta] that asks for lifecycle
    callbacks and for the records. *)
Definition replace_owners_loudly : Query :=
  set_meta (VDict [("skipAllLifecycleCallbacks", VBool false);
                   ("fetch", VBool true)])
           replace_owners.

(** A criteria whose [where] is the empty disjunction. *)
Definition nothing : value := VDict [("where", VDict [("or", VArr [])])].

(** A criteria whose [where] misspells [name]. *)
Definition misspelled : value :=
  VDict [("where", VDict [("nmae", VStr "Rex")])].

(** [Pet.findOrCreate({ name: 'Rex' }, { name: 'Rex' })], as the query
    stage 2 leaves it: the criteria expanded, the primary key of the new
    record set to [null]. *)
Definition named_rex : value := VDict [("where", VDict [("name", VStr "Rex")])].

Definition new_rex : dict := [("name", VStr "Rex"); ("id", VNull)].

Definition find_or_create_rex : Query :=
  set_newRecord (VDict new_rex)
    (set_criteria named_rex (new_query "findOrCreate" "pet")).

End Zoo.

(* ================================================================== *)
(** ** More observations on traces, and more fixtures *)
(* ================================================================== *)

(** The error the callback of a call reported, if it reported one. *)
Definition reported (e : event) : option value :=
  match e with
  | EvBack _ args => if truthy (arg 0 args) then Some (arg 0 args) else None
  | _ => None
  end.

(** The errors the callbacks of a trace reported, in order. *)
Definition errors (tr : list event) : list value := omap reported tr.

(** The calls whose callbacks fired in a trace, in order. *)
Definition called_back (tr : list event) : list call :=
  omap (fun e => match e with EvBack c _ => Some c | _ => None end) tr.

(** The records [processAllRecords] let through in a trace. *)
Definition processed (tr : list event) : list value :=
  omap (fun e => match e with
                 | EvProcess _ _ _ (Returned records) => Some records
                 | _ => None
                 end) tr.

(** The model a call is made on. *)
Definition call_model (c : call) : string :=
  match c with
  | HelpFind m _ | AdapterCount m _ _ | FindOne m _ _ | Create m _ _
  | Destroy m _ _ | CreateEach m _ _ | Update m _ _ _ => m
  end.

Module Kennel.

(** The quiet world with the answers of [f] to the calls. *)
Definition answering (f : call -> list value) : World :=
  {| stage_two := Forged;
     stage_three := fun q _ => Returned q;
     process_records := fun records _ _ => Returned records;
     respond := fun _ c => f c;
     pick := fun _ _ => 0 |}.

(** The quiet world whose stage-2 forger throws [e] on every query. *)
Definition rejecting (e : jserror) : World :=
  {| stage_two := fun q => Failed e q;
     stage_three := fun q _ => Returned q;
     process_records := fun records _ _ => Returned records;
     respond := fun _ _ => [];
     pick := fun _ _ => 0 |}.

(** An error of a forger with a code and details. *)
Definition forger_error (code details : string) : jserror :=
  JsError "UsageError" (Some code) (Some details) "Invalid.".

(** An error an adapter or a model method reports. *)
Definition down : value := VErr (new_Error "Connection lost.").

(** Another one. *)
Definition busy : value := VErr (new_Error "Too many connections.").

(** A model whose adapter has no [count] method. *)
Definition Log : Model :=
  {| identity := "log"; primaryKey := "id";
     schema := [("id", Zoo.plain)];
     junctionTable := None; throughTable := None;
     datastore := "files"; adapter_count := false |}.

(** [visit] as a through table between [pet] and [vet], and [pet] with its
    [vets] through it. *)
Definition Visit : Model :=
  {| identity := "visit"; primaryKey := "id";
     schema := [("id", Zoo.plain); ("pet", Zoo.foreign_key "pet" "pet");
                ("vet", Zoo.foreign_key "vet" "vet")];
     junctionTable := None;
     throughTable := Some [("pet.vets", "vet"); ("vet.pets", "pet")];
     datastore := "default"; adapter_count := true |}.

Definition orm : Orm :=
  {| collections :=
       list_to_map [("pet", Zoo.Pet); ("vet", Zoo.Vet); ("visit", Visit);
                    ("toy", Zoo.Toy)] |}.

(** [Pet.replaceCollection([1], 'toys', [])], as a query. *)
Definition clear_toys : Query :=
  set_associatedIds (VArr [])
    (set_collectionAttrName (VStr "toys")
       (set_targetRecordIds (VArr [VNum 1])
          (new_query "replaceCollection" "pet"))).

(** [Pet.replaceCollection([1], 'friends', [2])]: [friends] is no
    attribute of [pet]. *)
Definition replace_friends : Query :=
  set_associatedIds (VArr [VNum 2])
    (set_collectionAttrName (VStr "friends")
       (set_targetRecordIds (VArr [VNum 1])
          (new_query "replaceCollection" "pet"))).

(** [Pet.replaceCollection([1], 'constructor', [2])]: [constructor] is no
    attribute of [pet], and every schema object inherits it. *)
Definition replace_constructor : Query :=
  set_associatedIds (VArr [VNum 2])
    (set_collectionAttrName (VStr "constructor")
       (set_targetRecordIds (VArr [VNum 1])
          (new_query "replaceCollection" "pet"))).

(** A self-association: the [kids] of a cat are the cats whose [mom] it
    is. *)
Definition kids : AttrDef :=
  {| collection := Some "cat"; referenceIdentity := Some "cat";
     via := Some "mom"; on := Some "mom";
     references := Some "cat"; columnName := None |}.

Definition Cat : Model :=
  Zoo.model "cat" [("id", Zoo.plain); ("mom", Zoo.foreign_key "cat" "mom");
                   ("kids", kids)].

Definition cats : Orm := {| collections := list_to_map [("cat", Cat)] |}.

(** [Cat.replaceCollection([1], 'kids', [2])], as a query. *)
Definition replace_kids : Query :=
  set_associatedIds (VArr [VNum 2])
    (set_collectionAttrName (VStr "kids")
       (set_targetRecordIds (VArr [VNum 1])
          (new_query "replaceCollection" "cat"))).

(** An ontology in which [pet] and [vet] are loaded and [visit] is not. *)
Definition orm_without_visit : Orm :=
  {| collections := list_to_map [("pet", Zoo.Pet); ("vet", Zoo.Vet)] |}.

End Kennel.

(* ================================================================== *)
(** ** Error codes *)
(* ================================================================== *)

Lemma has_code_eq (e : jserror) (c : string) :
  err_code e = Some c -> has_code e c = true.
Proof.
  unfold has_code. intros ->. apply String.eqb_refl.
Qed.

Lemma has_code_ne (e : jserror) (c c' : string) :
  err_code e = Some c -> c <> c' -> has_code e c' = false.
Proof.
  unfold has_code. intros -> Hne. by apply String.eqb_neq.
Qed.

(** Rewrites every test of [e.code] once the code of [e] is known. *)
Ltac switch_on_code H :=
  repeat first
    [ rewrite (has_code_eq _ _ H)
    | rewrite (has_code_ne _ _ _ H) by discriminate ];
  cbn [orb andb negb].

(* ================================================================== *)
(** ** No-op criteria: find and count *)
(* ================================================================== *)

(** C2.  When stage-2 forging raises [E_NOOP] for a query (as it does for
    the canonical no-op criteria [{ where: { or: [] } }]), [find] calls
    [done(undefined, [])] and [count] calls [done(undefined, 0)]; the
    trace of either run holds the stage-2 call and nothing else: no
    stage-3 forging, no helper, no adapter method. *)
Theorem noop_find_and_count (w : World) (obj : Model) (q q' : Query)
    (e : jserror) :
  stage_two w q = Failed e q' ->
  err_code e = Some "E_NOOP" ->
  run w 0 (MethodFind.body obj q)
    = ([EvStage2 q (Failed e q')], Finished [VUndefined; VArr []])
  /\ run w 0 (MethodCount.body obj q)
    = ([EvStage2 q (Failed e q')], Finished [VUndefined; VNum 0]).
Proof.
  intros Hforge Hcode. split.
  - cbn [run MethodFind.body]. rewrite Hforge. switch_on_code Hcode.
    reflexivity.
  - cbn [run MethodCount.body]. rewrite Hforge. switch_on_code Hcode.
    reflexivity.
Qed.

Lemma noop_find_and_count_witness :
  let q := set_criteria Zoo.nothing (new_query "find" "pet") in
  let r := StageTwo.forgeStageTwoQuery Forged Zoo.orm q in
  run Zoo.strict 0 (MethodFind.body Zoo.Pet q)
    = ([EvStage2 q r], Finished [VUndefined; VArr []])
  /\ run Zoo.strict 0 (MethodCount.body Zoo.Pet q)
    = ([EvStage2 q r], Finished [VUndefined; VNum 0]).
Proof.
  apply (noop_find_and_count Zoo.strict Zoo.Pet
           (set_criteria Zoo.nothing (new_query "find" "pet"))
           (set_criteria StageTwo.NOOP_CRITERIA
              (set_criteria Zoo.nothing (new_query "find" "pet")))
           (StageTwo.E_NOOP "The `where` clause matches nothing."));
    reflexivity.
Defined.

(* ================================================================== *)
(** ** A misspelled attribute stops the pipeline at stage 2 *)
(* ================================================================== *)

(** C8.  With the stage-2 rules of [StageTwo.forgeStageTwoQuery]: for a
    query of a method that takes a criteria, on a known model, whose
    [where] clause names an attribute the model does not have, stage-2
    forging fails with code [E_INVALID_CRITERIA]; [count] hands that error
    to [done] and [find] hands [done] the usage error built from its
    details.  In both runs the trace holds the stage-2 call and nothing
    else: stage-3 forging is not reached and no call is issued. *)
Theorem misspelled_attribute_stops_at_stage_two
    (rest : Query -> forged) (orm : Orm) (w : World) (obj WLModel : Model)
    (q : Query) (wh : value) (attr : string) :
  stage_two w q = StageTwo.forgeStageTwoQuery rest orm q ->
  StageTwo.uses_criteria (method q) = true ->
  collections orm !! using_ q = Some WLModel ->
  StageTwo.where_of (criteria q) = Some wh ->
  StageTwo.unknown_attribute (schema WLModel).*1 wh = Some attr ->
  let e := StageTwo.E_INVALID_CRITERIA attr in
  let count := run w 0 (MethodCount.body obj q) in
  let find := run w 0 (MethodFind.body obj q) in
  stage_two w q = Failed e q
  /\ err_code e = Some "E_INVALID_CRITERIA"
  /\ count = ([EvStage2 q (Failed e q)], Finished [VErr e])
  /\ find = ([EvStage2 q (Failed e q)],
             Finished [VErr (usage_error
               ("Invalid criteria." +:+ nl +:+ "Details:" +:+ nl +:+
                "  Unrecognized attribute in `where`: " +:+ attr +:+ nl))])
  /\ reached_stage_three count.1 = false /\ issued count.1 = []
  /\ reached_stage_three find.1 = false /\ issued find.1 = [].
Proof.
  intros Hworld Hmethod Hmodel Hwhere Hattr e count find.
  assert (Hfail : stage_two w q = Failed e q).
  { rewrite Hworld. unfold StageTwo.forgeStageTwoQuery.
    assert (Hnot : StageTwo.is_collection_method (method q) = false).
    { unfold StageTwo.uses_criteria, StageTwo.is_collection_method in *.
      cbn [existsb] in *.
      repeat match type of Hmethod with
             | (?a =? ?b)%string || _ = true =>
                 destruct (String.eqb_spec a b) as [->|_];
                 [reflexivity | cbn [orb] in Hmethod]
             end.
      discriminate. }
    rewrite Hnot, Hmethod, Hmodel, Hwhere, Hattr. reflexivity. }
  assert (Hcount : count = ([EvStage2 q (Failed e q)], Finished [VErr e])).
  { subst count. cbn [run MethodCount.body]. rewrite Hfail. reflexivity. }
  assert (Hfind : find = ([EvStage2 q (Failed e q)],
             Finished [VErr (usage_error
               ("Invalid criteria." +:+ nl +:+ "Details:" +:+ nl +:+
                "  Unrecognized attribute in `where`: " +:+ attr +:+ nl))])).
  { subst find. cbn [run MethodFind.body]. rewrite Hfail. reflexivity. }
  rewrite Hcount, Hfind. repeat split; reflexivity || assumption.
Qed.

Lemma misspelled_attribute_stops_at_stage_two_witness :
  let q := set_criteria Zoo.misspelled (new_query "count" "pet") in
  let e := StageTwo.E_INVALID_CRITERIA "nmae" in
  stage_two Zoo.strict q = Failed e q
  /\ run Zoo.strict 0 (MethodCount.body Zoo.Pet q)
     = ([EvStage2 q (Failed e q)], Finished [VErr e]).
Proof.
  pose proof (misspelled_attribute_stops_at_stage_two Forged Zoo.orm
                Zoo.strict Zoo.Pet Zoo.Pet
                (set_criteria Zoo.misspelled (new_query "count" "pet"))
                (VDict [("nmae", VStr "Rex")]) "nmae") as H.
  cbv zeta in H.
  destruct H as (Hfail & _ & Hcount & _); try reflexivity.
  split; [exact Hfail | exact Hcount].
Defined.

(* ================================================================== *)
(** ** findOrCreate *)
(* ================================================================== *)

Lemma dict_get_set_eq (k : string) (v : value) (d : dict) :
  dict_get k (dict_set k v d) = Some v.
Proof.
  unfold dict_get.
  induction d as [|[k' v'] d IH]; cbn.
  - by rewrite String.eqb_refl.
  - destruct (String.eqb_spec k k') as [->|Hne]; cbn.
    + by rewrite String.eqb_refl.
    + destruct (String.eqb_spec k k'); [done | exact IH].
Qed.

Lemma dict_get_set_ne (k k' : string) (v : value) (d : dict) :
  k <> k' -> dict_get k (dict_set k' v d) = dict_get k d.
Proof.
  unfold dict_get. intros Hne.
  induction d as [|[k0 v0] d IH]; cbn.
  - destruct (String.eqb_spec k k'); [done | reflexivity].
  - destruct (String.eqb_spec k' k0) as [->|Hne0]; cbn.
    + destruct (String.eqb_spec k k0); [done | reflexivity].
    + destruct (String.eqb_spec k k0); [reflexivity | exact IH].
Qed.

(** The try block of [findOrCreate] leaves the run to the code after it. *)
Lemma findOrCreate_after_forging (w : World) (obj : Model) (q q' : Query) :
  MethodFindOrCreate.after_forging (stage_two w q) = Some q' ->
  run w 0 (MethodFindOrCreate.body obj q)
  = (EvStage2 q (stage_two w q)
       :: (run w 0 (MethodFindOrCreate.find_then_create obj q')).1,
     (run w 0 (MethodFindOrCreate.find_then_create obj q')).2).
Proof.
  intros Hafter. cbn [run MethodFindOrCreate.body].
  destruct (stage_two w q) as [q1|e q1]; cbn in Hafter.
  - injection Hafter as <-.
    by destruct (run w 0 (MethodFindOrCreate.find_then_create obj q1)).
  - destruct (has_code e "E_NOOP") eqn:Hnoop; [|discriminate].
    injection Hafter as <-.
    assert (Hcode : err_code e = Some "E_NOOP").
    { unfold has_code in Hnoop. destruct (err_code e) as [c|]; [|done].
      by apply String.eqb_eq in Hnoop as ->. }
    switch_on_code Hcode.
    by destruct (run w 0 (MethodFindOrCreate.find_then_create obj _)).
Qed.

(** The code after the try block, for a criteria and a new record that
    are dictionaries. *)
Lemma find_then_create_run (w : World) (obj : Model) (q' : Query)
    (c : value) (rec : dict) :
  MethodFindOrCreate.delete_paging (criteria q') = Some c ->
  newRecord q' = VDict rec ->
  let pk := primaryKey obj in
  let findOne := FindOne (identity obj) c (meta q') in
  let found := respond w 0 findOne in
  let record :=
    if isNull (default VUndefined (dict_get pk rec))
    then VDict (dict_delete pk rec) else VDict rec in
  let create :=
    Create (identity obj) record (MethodFindOrCreate.modifiedMeta q') in
  let created := respond w 1 create in
  run w 0 (MethodFindOrCreate.find_then_create obj q')
  = if truthy (arg 0 found) then
      ([EvCall findOne; EvBack findOne found], Finished [arg 0 found])
    else if truthy (arg 1 found) then
      ([EvCall findOne; EvBack findOne found],
       Finished [VUndefined; arg 1 found; VBool false])
    else
      ([EvCall findOne; EvBack findOne found;
        EvCall create; EvBack create created],
       Finished (if truthy (arg 0 created) then [arg 0 created]
                 else [VUndefined; arg 1 created; VBool true])).
Proof.
  intros Hpaging Hrec pk findOne found record create created.
  unfold MethodFindOrCreate.find_then_create. rewrite Hpaging.
  subst created create record found findOne pk.
  cbn [run criteria meta set_criteria fst snd].
  unfold MethodFindOrCreate._afterPotentiallyFinding.
  destruct (truthy (arg 0 (respond w 0 _))) eqn:Herr; [reflexivity|].
  destruct (truthy (arg 1 (respond w 0 _))) eqn:Hfound; [reflexivity|].
  cbn [newRecord set_criteria]. rewrite Hrec. cbn [get_prop delete_prop].
  unfold MethodFindOrCreate.modifiedMeta.
  destruct (isNull (default VUndefined (dict_get (primaryKey obj) rec)));
    cbn; rewrite ?Hrec; destruct (truthy (arg 0 (respond w 1 _))); reflexivity.
Qed.

(** C3.  For a [findOrCreate] whose query gets past stage-2 forging with a
    criteria and a new record that are dictionaries: [findOne] is called
    with the criteria; if it reports an error that error goes to [done];
    if it finds a record [done] receives [(undefined, record, false)] and
    no create is issued; otherwise [create] is called with the new record,
    from which the primary key is deleted when its value is [null], and
    [done] receives [(undefined, createdRecord, true)], or the error of
    the create. *)
Theorem findOrCreate_finds_or_creates (w : World) (obj : Model)
    (q q' : Query) (c : value) (rec : dict) :
  MethodFindOrCreate.after_forging (stage_two w q) = Some q' ->
  MethodFindOrCreate.delete_paging (criteria q') = Some c ->
  newRecord q' = VDict rec ->
  let pk := primaryKey obj in
  let findOne := FindOne (identity obj) c (meta q') in
  let found := respond w 0 findOne in
  let record :=
    if isNull (default VUndefined (dict_get pk rec))
    then VDict (dict_delete pk rec) else VDict rec in
  let create :=
    Create (identity obj) record (MethodFindOrCreate.modifiedMeta q') in
  let created := respond w 1 create in
  let forging := EvStage2 q (stage_two w q) in
  run w 0 (MethodFindOrCreate.body obj q)
  = if truthy (arg 0 found) then
      ([forging; EvCall findOne; EvBack findOne found],
       Finished [arg 0 found])
    else if truthy (arg 1 found) then
      ([forging; EvCall findOne; EvBack findOne found],
       Finished [VUndefined; arg 1 found; VBool false])
    else
      ([forging; EvCall findOne; EvBack findOne found;
        EvCall create; EvBack create created],
       Finished (if truthy (arg 0 created) then [arg 0 created]
                 else [VUndefined; arg 1 created; VBool true])).
Proof.
  intros Hafter Hpaging Hrec pk findOne found record create created forging.
  rewrite (findOrCreate_after_forging w obj q q' Hafter).
  rewrite (find_then_create_run w obj q' c rec Hpaging Hrec).
  cbv zeta. fold pk findOne. fold found. fold record. fold create.
  fold created.
  destruct (truthy (arg 0 found)); [reflexivity|].
  destruct (truthy (arg 1 found)); reflexivity.
Qed.

Lemma findOrCreate_finds_or_creates_witness :
  let q := Zoo.find_or_create_rex in
  let findOne := FindOne "pet" Zoo.named_rex VUndefined in
  let create :=
    Create "pet" (VDict [("name", VStr "Rex")])
           (VDict [("fetch", VBool true)]) in
  run Zoo.finding 0 (MethodFindOrCreate.body Zoo.Pet q)
  = ([EvStage2 q (Forged q); EvCall findOne;
      EvBack findOne [VUndefined; Zoo.rex]],
     Finished [VUndefined; Zoo.rex; VBool false])
  /\ run Zoo.quiet 0 (MethodFindOrCreate.body Zoo.Pet q)
  = ([EvStage2 q (Forged q); EvCall findOne; EvBack findOne [];
      EvCall create; EvBack create []],
     Finished [VUndefined; VUndefined; VBool true]).
Proof.
  split.
  - apply (findOrCreate_finds_or_creates Zoo.finding Zoo.Pet
             Zoo.find_or_create_rex Zoo.find_or_create_rex
             Zoo.named_rex Zoo.new_rex); reflexivity.
  - apply (findOrCreate_finds_or_creates Zoo.quiet Zoo.Pet
             Zoo.find_or_create_rex Zoo.find_or_create_rex
             Zoo.named_rex Zoo.new_rex); reflexivity.
Defined.

(** C10.  When stage-2 forging raises [E_NOOP] for a [findOrCreate] whose
    new record is a dictionary, the run does not end there: [findOne] is
    called with the criteria [{ where: { or: [] } }], which has no
    [limit], [skip] or [sort]; and when that [findOne] comes back with no
    error and no record, [create] is called with the new record (its
    primary key deleted when [null]) and with a meta that is the caller's
    meta extended with [fetch: true]; [done] receives the created record
    and [true], or the error of the create. *)
Theorem findOrCreate_noop_goes_on_to_create (w : World) (obj : Model)
    (q q0 : Query) (e : jserror) (rec : dict) :
  stage_two w q = Failed e q0 ->
  err_code e = Some "E_NOOP" ->
  newRecord q0 = VDict rec ->
  let pk := primaryKey obj in
  let findOne :=
    FindOne (identity obj) (VDict [("where", VDict [("or", VArr [])])])
            (meta q0) in
  let found := respond w 0 findOne in
  truthy (arg 0 found) = false ->
  truthy (arg 1 found) = false ->
  let record :=
    if isNull (default VUndefined (dict_get pk rec))
    then VDict (dict_delete pk rec) else VDict rec in
  let modifiedMeta :=
    dict_extend (dict_extend [] (own_props (or_empty (meta q0))))
                [("fetch", VBool true)] in
  let create := Create (identity obj) record (VDict modifiedMeta) in
  let created := respond w 1 create in
  run w 0 (MethodFindOrCreate.body obj q)
  = ([EvStage2 q (Failed e q0); EvCall findOne; EvBack findOne found;
      EvCall create; EvBack create created],
     Finished (if truthy (arg 0 created) then [arg 0 created]
               else [VUndefined; arg 1 created; VBool true]))
  /\ dict_get "fetch" modifiedMeta = Some (VBool true).
Proof.
  intros Hforge Hcode Hrec pk findOne found Herr Hnone record modifiedMeta
         create created.
  split; [|apply dict_get_set_eq].
  assert (Hafter : MethodFindOrCreate.after_forging (stage_two w q)
                   = Some (set_criteria MethodFindOrCreate.STD_NOOP_CRITERIA q0)).
  { rewrite Hforge. cbn. by rewrite (has_code_eq _ _ Hcode). }
  rewrite (findOrCreate_after_forging w obj q _ Hafter).
  rewrite (find_then_create_run w obj
             (set_criteria MethodFindOrCreate.STD_NOOP_CRITERIA q0)
             (VDict [("where", VDict [("or", VArr [])])]) rec eq_refl Hrec).
  cbv zeta. cbn [meta set_criteria]. fold pk findOne. fold found.
  rewrite Herr, Hnone, Hforge. reflexivity.
Qed.

Lemma findOrCreate_noop_goes_on_to_create_witness :
  let q := set_newRecord (VDict Zoo.new_rex)
             (set_criteria Zoo.nothing (new_query "findOrCreate" "pet")) in
  let findOne := FindOne "pet" Zoo.nothing VUndefined in
  let create :=
    Create "pet" (VDict [("name", VStr "Rex")])
           (VDict [("fetch", VBool true)]) in
  run Zoo.strict 0 (MethodFindOrCreate.body Zoo.Pet q)
  = ([EvStage2 q (Failed (StageTwo.E_NOOP "The `where` clause matches nothing.") q);
      EvCall findOne; EvBack findOne [];
      EvCall create; EvBack create []],
     Finished [VUndefined; VUndefined; VBool true]).
Proof.
  apply (findOrCreate_noop_goes_on_to_create Zoo.strict Zoo.Pet
           (set_newRecord (VDict Zoo.new_rex)
              (set_criteria Zoo.nothing (new_query "findOrCreate" "pet")))
           (set_newRecord (VDict Zoo.new_rex)
              (set_criteria Zoo.nothing (new_query "findOrCreate" "pet")))
           (StageTwo.E_NOOP "The `where` clause matches nothing.")
           Zoo.new_rex); reflexivity.
Defined.

(* ================================================================== *)
(** ** replaceCollection: the runs of the two expansions *)
(* ================================================================== *)

Lemma replaceCollection_forged (w : World) (orm : Orm) (q q' : Query)
    (WLModel : Model) (schemaDef : AttrDef) (WLChild : Model)
    (manyToMany : bool) :
  stage_two w q = Forged q' ->
  MethodReplaceCollection.resolve orm q'
    = MethodReplaceCollection.Resolved WLModel schemaDef WLChild manyToMany ->
  let expansion :=
    if manyToMany
    then MethodReplaceCollection.expand_manyToMany WLModel schemaDef WLChild q'
    else MethodReplaceCollection.expand_oneToMany schemaDef WLChild q' in
  run w 0 (MethodReplaceCollection.body orm q)
  = (EvStage2 q (Forged q') :: (run w 0 expansion).1, (run w 0 expansion).2).
Proof.
  intros Hforge Hresolve expansion.
  cbn [run MethodReplaceCollection.body]. rewrite Hforge, Hresolve.
  fold expansion. by destruct (run w 0 expansion).
Qed.

Lemma proceed_run (w : World) (n : nat) (err : value) :
  run w n (MethodReplaceCollection.proceed err)
  = ([], Finished (if truthy err then [err] else [])).
Proof.
  unfold MethodReplaceCollection.proceed. by destruct (truthy err).
Qed.

(** The run of the many-to-many expansion. *)
Lemma expand_manyToMany_run (w : World) (WLModel : Model)
    (schemaDef : AttrDef) (WLChild : Model) (q : Query) :
  let refs := MethodReplaceCollection.find_references WLModel schemaDef WLChild q in
  let modifiedMeta :=
    VDict (dict_set "fetch" (VBool false)
                    (MethodReplaceCollection.modifiedMeta q)) in
  let destroy :=
    Destroy (identity WLChild)
      (VDict [("where",
               VDict [(key_of refs.1, VDict [("in", targetRecordIds q)])])])
      modifiedMeta in
  let createEach :=
    CreateEach (identity WLChild)
      (VArr (MethodReplaceCollection.insertRecords refs.1 refs.2 q))
      modifiedMeta in
  let destroyed := respond w 0 destroy in
  let created := respond w 1 createEach in
  run w 0 (MethodReplaceCollection.expand_manyToMany WLModel schemaDef WLChild q)
  = if truthy (arg 0 destroyed) then
      ([EvCall destroy; EvBack destroy destroyed],
       Finished [arg 0 destroyed])
    else
      match length_is_zero (associatedIds q) with
      | None =>
          ([EvCall destroy; EvBack destroy destroyed],
           Crashed (type_error "length"))
      | Some true =>
          ([EvCall destroy; EvBack destroy destroyed], Finished [])
      | Some false =>
          ([EvCall destroy; EvBack destroy destroyed;
            EvCall createEach; EvBack createEach created],
           Finished (if truthy (arg 0 created) then [arg 0 created] else []))
      end.
Proof.
  intros refs modifiedMeta destroy createEach destroyed created.
  unfold MethodReplaceCollection.expand_manyToMany.
  subst created destroyed createEach destroy modifiedMeta refs.
  destruct (MethodReplaceCollection.find_references WLModel schemaDef WLChild q)
    as [parentReference childReference].
  cbn [fst snd]. cbn [run].
  destruct (truthy (arg 0 (respond w 0 _))) eqn:Herr.
  - rewrite proceed_run, Herr. reflexivity.
  - destruct (length_is_zero (associatedIds q)) as [[|]|]; cbn [run].
    + reflexivity.
    + rewrite proceed_run. reflexivity.
    + reflexivity.
Qed.

(** The run of the one-to-many expansion. *)
Lemma expand_oneToMany_run (w : World) (schemaDef : AttrDef)
    (WLChild : Model) (q : Query) :
  let nullOut := null_out schemaDef WLChild q in
  let pairs := pair_updates schemaDef WLChild q in
  let nulled := respond w 0 nullOut in
  let fanout := drain w 1 (length pairs) 0 (tickets 1 pairs) in
  let after := late w 1 (length pairs) 0 (tickets 1 pairs) in
  run w 0 (MethodReplaceCollection.expand_oneToMany schemaDef WLChild q)
  = if truthy (arg 0 nulled) then
      ([EvCall nullOut; EvBack nullOut nulled], Finished [arg 0 nulled])
    else
      (EvCall nullOut :: EvBack nullOut nulled
         :: map EvCall pairs ++ fanout.1 ++ after,
       Finished (if truthy fanout.2 then [fanout.2] else [])).
Proof.
  intros nullOut pairs nulled fanout after.
  unfold MethodReplaceCollection.expand_oneToMany.
  fold (null_out schemaDef WLChild q). fold nullOut.
  cbn [run]. fold nulled.
  destruct (truthy (arg 0 nulled)) eqn:Herr.
  - rewrite proceed_run, Herr. reflexivity.
  - cbn [run]. fold (pair_updates schemaDef WLChild q). fold pairs.
    unfold run_each, late_each. fold fanout. fold after.
    destruct fanout as [evs err]. cbn [fst snd].
    destruct (truthy err) eqn:Hfail; rewrite proceed_run; cbn [truthy];
      rewrite ?Hfail; cbn [app]; rewrite <- ?app_assoc; reflexivity.
Qed.

(** The late callbacks issue no call. *)
Lemma issued_fire (w : World) (base fuel step : nat)
    (pending : list (nat * call)) :
  issued (fire w base fuel step pending) = [].
Proof.
  revert step pending.
  induction fuel as [|fuel IH]; intros step pending; [reflexivity|].
  cbn [fire]. destruct (pending !! _) as [[ticket c]|]; [|reflexivity].
  exact (IH _ _).
Qed.

Lemma issued_late (w : World) (base fuel step : nat)
    (pending : list (nat * call)) :
  issued (late w base fuel step pending) = [].
Proof.
  revert step pending.
  induction fuel as [|fuel IH]; intros step pending; [reflexivity|].
  cbn [late]. destruct (pending !! _) as [[ticket c]|]; [|reflexivity].
  destruct (truthy (arg 0 (respond w ticket c)));
    [apply issued_fire | exact (IH _ _)].
Qed.

(** When the final callback of a fan-out gets no error, no callback is
    late. *)
Lemma late_after_success (w : World) (base fuel : nat) :
  forall (step : nat) (pending : list (nat * call)),
    truthy (drain w base fuel step pending).2 = false ->
    late w base fuel step pending = [].
Proof.
  induction fuel as [|fuel IH]; intros step pending; [reflexivity|].
  cbn [drain late]. destruct (pending !! _) as [[ticket c]|]; [|reflexivity].
  destruct (truthy (arg 0 (respond w ticket c))) eqn:Herr.
  - cbn [snd]. intros Hnone. by rewrite Herr in Hnone.
  - specialize (IH (S step)
                   (delete (pick w base step `mod` length pending) pending)).
    destruct (drain w base fuel (S step) _) as [evs err]. exact IH.
Qed.

(* ================================================================== *)
(** ** replaceCollection on a many-to-many association *)
(* ================================================================== *)

(** The inserted records are one join record per pair of the product. *)
Lemma insertRecords_product (parentReference childReference : option string)
    (q : Query) (T A : list value) :
  targetRecordIds q = VArr T ->
  associatedIds q = VArr A ->
  MethodReplaceCollection.insertRecords parentReference childReference q
  = map (fun ta => VDict (dict_set (key_of childReference) ta.2
                                   [(key_of parentReference, ta.1)]))
        (list_prod T A).
Proof.
  intros HT HA. unfold MethodReplaceCollection.insertRecords.
  rewrite HT, HA. cbn [each_items]. clear HT HA.
  induction T as [|t T IH]; [reflexivity|].
  cbn [flat_map list_prod]. rewrite map_app, map_map, IH. reflexivity.
Qed.

Lemma join_record_two_keys (parent child : string) (t a : value) :
  parent <> child ->
  dict_set child a [(parent, t)] = [(parent, t); (child, a)].
Proof.
  intros Hne. cbn. destruct (String.eqb_spec child parent); [congruence|done].
Qed.

(** C1.  For a forged [replaceCollection] query on a many-to-many
    association, with target ids [T] and associated ids [A], both
    non-empty: the run issues one [destroy] on the join model, with the
    criteria "parent reference in [T]", and nothing else until its callback
    fires; if the destroy reports an error the run ends with it; otherwise
    it issues one [createEach] whose records are, in order, one join record
    per pair of [T x A], with the parent reference set to the target id
    and the child reference to the associated id (two distinct keys when
    the two references differ). *)
Theorem replaceCollection_manyToMany_destroys_then_inserts
    (w : World) (orm : Orm) (q q' : Query) (WLModel : Model)
    (schemaDef : AttrDef) (WLChild : Model) (T A : list value) :
  stage_two w q = Forged q' ->
  MethodReplaceCollection.resolve orm q'
    = MethodReplaceCollection.Resolved WLModel schemaDef WLChild true ->
  targetRecordIds q' = VArr T -> T <> [] ->
  associatedIds q' = VArr A -> A <> [] ->
  let refs := MethodReplaceCollection.find_references WLModel schemaDef WLChild q' in
  let parent := key_of refs.1 in
  let child := key_of refs.2 in
  let modifiedMeta :=
    VDict (dict_set "fetch" (VBool false)
                    (MethodReplaceCollection.modifiedMeta q')) in
  let destroy :=
    Destroy (identity WLChild)
      (VDict [("where", VDict [(parent, VDict [("in", VArr T)])])])
      modifiedMeta in
  let rows :=
    map (fun ta => VDict (dict_set child ta.2 [(parent, ta.1)]))
        (list_prod T A) in
  let createEach := CreateEach (identity WLChild) (VArr rows) modifiedMeta in
  let destroyed := respond w 0 destroy in
  let created := respond w 1 createEach in
  run w 0 (MethodReplaceCollection.body orm q)
  = (if truthy (arg 0 destroyed) then
       ([EvStage2 q (Forged q'); EvCall destroy; EvBack destroy destroyed],
        Finished [arg 0 destroyed])
     else
       ([EvStage2 q (Forged q'); EvCall destroy; EvBack destroy destroyed;
         EvCall createEach; EvBack createEach created],
        Finished (if truthy (arg 0 created) then [arg 0 created] else [])))
  /\ (parent <> child ->
      rows = map (fun ta => VDict [(parent, ta.1); (child, ta.2)])
                 (list_prod T A)).
Proof.
  intros Hforge Hresolve HT HTne HA HAne refs parent child modifiedMeta
         destroy rows createEach destroyed created.
  split.
  - rewrite (replaceCollection_forged w orm q q' _ _ _ _ Hforge Hresolve).
    cbv zeta. rewrite expand_manyToMany_run. cbv zeta. fold refs.
    rewrite (insertRecords_product refs.1 refs.2 q' T A HT HA).
    rewrite HT, HA. fold parent child. fold modifiedMeta. fold destroy.
    fold rows. fold createEach. fold destroyed. fold created.
    destruct (truthy (arg 0 destroyed)); [reflexivity|].
    destruct A as [|a A]; [done|]. reflexivity.
  - intros Hne. subst rows. apply map_ext. intros [t a]. cbn [fst snd].
    by rewrite join_record_two_keys.
Qed.

Lemma replaceCollection_manyToMany_destroys_then_inserts_witness :
  let modifiedMeta :=
    VDict [("skipAllLifecycleCallbacks", VBool true); ("fetch", VBool false)] in
  let destroy :=
    Destroy "pet_owners"
      (VDict [("where",
               VDict [("pet_owners", VDict [("in", VArr [VNum 1; VNum 2])])])])
      modifiedMeta in
  let createEach :=
    CreateEach "pet_owners"
      (VArr [VDict [("pet_owners", VNum 1); ("owner_pets", VNum 9)];
             VDict [("pet_owners", VNum 2); ("owner_pets", VNum 9)]])
      modifiedMeta in
  run Zoo.quiet 0 (MethodReplaceCollection.body Zoo.orm Zoo.replace_owners)
  = ([EvStage2 Zoo.replace_owners (Forged Zoo.replace_owners);
      EvCall destroy; EvBack destroy [];
      EvCall createEach; EvBack createEach []],
     Finished []).
Proof.
  apply (replaceCollection_manyToMany_destroys_then_inserts
           Zoo.quiet Zoo.orm Zoo.replace_owners Zoo.replace_owners
           Zoo.Pet Zoo.owners Zoo.PetOwners [VNum 1; VNum 2] [VNum 9]);
    reflexivity || discriminate.
Defined.

(** C6.  Three facts, each under its own hypotheses.  With the stage-2
    rules of [StageTwo.forgeStageTwoQuery], a [replaceCollection] query
    whose [targetRecordIds] is the empty list is reported as [E_NOOP].  On
    the code, in every world: when stage 2 throws an error whose code is
    [E_NOOP], whatever its text, the run calls [done()] with no error and
    no result after the stage-2 call alone.  And on the code, in every
    world: for a forged [replaceCollection] query on a many-to-many
    association whose [associatedIds] is the empty list, the run issues
    the [destroy] of the join records of the targets and no other call:
    no insert. *)
Theorem replaceCollection_empty_ids
    (rest : Query -> forged) (w : World) (orm : Orm)
    (q0 q1 q1' q2 q2' : Query) (e : jserror)
    (WLModel : Model) (schemaDef : AttrDef) (WLChild : Model) :
  (method q0 = "replaceCollection" ->
   targetRecordIds q0 = VArr [] ->
   StageTwo.forgeStageTwoQuery rest orm q0
   = Failed (StageTwo.E_NOOP "No target record ids.") q0)
  /\ (stage_two w q1 = Failed e q1' ->
      has_code e "E_NOOP" = true ->
      run w 0 (MethodReplaceCollection.body orm q1)
      = ([EvStage2 q1 (Failed e q1')], Finished []))
  /\ (stage_two w q2 = Forged q2' ->
      MethodReplaceCollection.resolve orm q2'
        = MethodReplaceCollection.Resolved WLModel schemaDef WLChild true ->
      associatedIds q2' = VArr [] ->
      let refs :=
        MethodReplaceCollection.find_references WLModel schemaDef WLChild q2' in
      let destroy :=
        Destroy (identity WLChild)
          (VDict [("where",
                   VDict [(key_of refs.1,
                           VDict [("in", targetRecordIds q2')])])])
          (VDict (dict_set "fetch" (VBool false)
                           (MethodReplaceCollection.modifiedMeta q2'))) in
      let destroyed := respond w 0 destroy in
      run w 0 (MethodReplaceCollection.body orm q2)
      = ([EvStage2 q2 (Forged q2'); EvCall destroy; EvBack destroy destroyed],
         Finished (if truthy (arg 0 destroyed) then [arg 0 destroyed]
                   else []))).
Proof.
  split; [|split].
  - intros Hmethod Htargets. unfold StageTwo.forgeStageTwoQuery.
    rewrite Hmethod, Htargets. reflexivity.
  - intros Hfail Hnoop.
    assert (Hcode : err_code e = Some "E_NOOP").
    { unfold has_code in Hnoop. destruct (err_code e) as [c|]; [|done].
      by apply String.eqb_eq in Hnoop as ->. }
    cbn [run MethodReplaceCollection.body]. rewrite Hfail.
    switch_on_code Hcode. reflexivity.
  - intros Hforge Hresolve Hassoc refs destroy destroyed.
    rewrite (replaceCollection_forged w orm q2 q2' _ _ _ _ Hforge Hresolve).
    cbv zeta. rewrite expand_manyToMany_run. cbv zeta.
    fold refs. fold destroy. fold destroyed. rewrite Hassoc.
    destruct (truthy (arg 0 destroyed)); reflexivity.
Qed.

Lemma replaceCollection_empty_ids_witness :
  let noop := StageTwo.E_NOOP "No target record ids." in
  let other :=
    JsError "UsageError" (Some "E_NOOP") None "Nothing to do." in
  let destroy :=
    Destroy "pet_owners"
      (VDict [("where",
               VDict [("pet_owners", VDict [("in", VArr [VNum 1; VNum 2])])])])
      (VDict [("skipAllLifecycleCallbacks", VBool true);
              ("fetch", VBool false)]) in
  stage_two Zoo.strict Zoo.replace_for_nobody
  = Failed noop Zoo.replace_for_nobody
  /\ run Zoo.strict 0
        (MethodReplaceCollection.body Zoo.orm Zoo.replace_for_nobody)
     = ([EvStage2 Zoo.replace_for_nobody (Failed noop Zoo.replace_for_nobody)],
        Finished [])
  /\ run (Kennel.rejecting other) 0
        (MethodReplaceCollection.body Zoo.orm Zoo.replace_owners)
     = ([EvStage2 Zoo.replace_owners (Failed other Zoo.replace_owners)],
        Finished [])
  /\ run Zoo.quiet 0 (MethodReplaceCollection.body Zoo.orm Zoo.clear_owners)
     = ([EvStage2 Zoo.clear_owners (Forged Zoo.clear_owners);
         EvCall destroy; EvBack destroy []],
        Finished []).
Proof.
  intros noop other destroy.
  destruct (replaceCollection_empty_ids Forged Zoo.strict Zoo.orm
              Zoo.replace_for_nobody Zoo.replace_for_nobody
              Zoo.replace_for_nobody Zoo.clear_owners Zoo.clear_owners noop
              Zoo.Pet Zoo.owners Zoo.PetOwners) as (Hrule & Hstrict & _).
  destruct (replaceCollection_empty_ids Forged (Kennel.rejecting other)
              Zoo.orm Zoo.replace_for_nobody Zoo.replace_owners
              Zoo.replace_owners Zoo.clear_owners Zoo.clear_owners other
              Zoo.Pet Zoo.owners Zoo.PetOwners) as (_ & Hother & _).
  destruct (replaceCollection_empty_ids Forged Zoo.quiet Zoo.orm
              Zoo.replace_for_nobody Zoo.replace_for_nobody
              Zoo.replace_for_nobody Zoo.clear_owners Zoo.clear_owners noop
              Zoo.Pet Zoo.owners Zoo.PetOwners) as (_ & _ & Hclear).
  split; [|split; [|split]].
  - apply Hrule; reflexivity.
  - apply Hstrict; reflexivity.
  - apply Hother; reflexivity.
  - apply Hclear; reflexivity.
Defined.

(* ================================================================== *)
(** ** replaceCollection: every spawned operation skips the lifecycle
       callbacks *)
(* ================================================================== *)

Lemma issued_app (tr1 tr2 : list event) :
  issued (tr1 ++ tr2) = issued tr1 ++ issued tr2.
Proof. apply omap_app. Qed.

Lemma issued_forging (q : Query) (r : forged) (tr : list event) :
  issued (EvStage2 q r :: tr) = issued tr.
Proof. reflexivity. Qed.

Lemma issued_call (c : call) (tr : list event) :
  issued (EvCall c :: tr) = c :: issued tr.
Proof. reflexivity. Qed.

Lemma issued_back (c : call) (args : list value) (tr : list event) :
  issued (EvBack c args :: tr) = issued tr.
Proof. reflexivity. Qed.

Lemma issued_calls (cs : list call) : issued (map EvCall cs) = cs.
Proof.
  induction cs as [|c cs IH]; [reflexivity|]. cbn. by rewrite <- IH at 2.
Qed.

(** The callbacks of a fan-out issue no call. *)
Lemma issued_drain (w : World) (base fuel step : nat)
    (pending : list (nat * call)) :
  issued (drain w base fuel step pending).1 = [].
Proof.
  revert step pending.
  induction fuel as [|fuel IH]; intros step pending; [reflexivity|].
  cbn [drain].
  destruct (pending !! _) as [[ticket c]|]; [|reflexivity].
  destruct (truthy (arg 0 (respond w ticket c))); [reflexivity|].
  specialize (IH (S step)
                 (delete (pick w base step `mod` length pending) pending)).
  destruct (drain w base fuel (S step) _) as [evs err]. exact IH.
Qed.

(** The calls of a fan-out are the calls of its array. *)
Lemma issued_fanout (w : World) (base fuel step : nat) (cs : list call)
    (pending : list (nat * call)) :
  issued (map EvCall cs ++ (drain w base fuel step pending).1
            ++ late w base fuel step pending)
  = cs.
Proof.
  by rewrite !issued_app, issued_calls, issued_drain, issued_late, !app_nil_r.
Qed.

Lemma modifiedMeta_skips (q : Query) :
  dict_get "skipAllLifecycleCallbacks" (MethodReplaceCollection.modifiedMeta q)
  = Some (VBool true).
Proof. apply dict_get_set_eq. Qed.

Lemma modifiedMeta_without_fetch_skips (q : Query) :
  dict_get "skipAllLifecycleCallbacks"
           (dict_set "fetch" (VBool false)
                     (MethodReplaceCollection.modifiedMeta q))
  = Some (VBool true).
Proof. rewrite dict_get_set_ne by discriminate. apply modifiedMeta_skips. Qed.

Lemma pair_updates_skip (schemaDef : AttrDef) (WLChild : Model) (q : Query) :
  forallb skips_lifecycle_callbacks (pair_updates schemaDef WLChild q) = true.
Proof.
  unfold pair_updates. apply forallb_forall. intros c Hin.
  apply in_map_iff in Hin as (uq & <- & _).
  unfold skips_lifecycle_callbacks. cbn [call_meta get_prop].
  by rewrite modifiedMeta_skips.
Qed.

(** The caller's [skipAllLifecycleCallbacks: false] and [fetch: true] are
    overridden in the [meta] of both calls. *)
Example replace_owners_loudly_calls :
  let modifiedMeta :=
    VDict [("skipAllLifecycleCallbacks", VBool true); ("fetch", VBool false)] in
  issued (run Zoo.quiet 0
            (MethodReplaceCollection.body Zoo.orm Zoo.replace_owners_loudly)).1
  = [Destroy "pet_owners"
       (VDict [("where",
          VDict [("pet_owners", VDict [("in", VArr [VNum 1; VNum 2])])])])
       modifiedMeta;
     CreateEach "pet_owners"
       (VArr [VDict [("pet_owners", VNum 1); ("owner_pets", VNum 9)];
              VDict [("pet_owners", VNum 2); ("owner_pets", VNum 9)]])
       modifiedMeta].
Proof. reflexivity. Qed.

(** C7.  In every run of [replaceCollection], whatever the world answers
    and whatever the query (its [meta] included), every call the run
    issues, that is the [destroy] and the [createEach] of the many-to-many
    expansion and the [update]s of the one-to-many expansion, carries a
    [meta] in which [skipAllLifecycleCallbacks] is [true]. *)
Theorem replaceCollection_skips_lifecycle_callbacks
    (w : World) (orm : Orm) (q : Query) :
  forallb skips_lifecycle_callbacks
          (issued (run w 0 (MethodReplaceCollection.body orm q)).1) = true.
Proof.
  destruct (stage_two w q) as [q'|e q'] eqn:Hforge.
  - destruct (MethodReplaceCollection.resolve orm q')
      as [e|e|WLModel schemaDef WLChild manyToMany] eqn:Hresolve.
    + cbn [run MethodReplaceCollection.body]. rewrite Hforge, Hresolve.
      reflexivity.
    + cbn [run MethodReplaceCollection.body]. rewrite Hforge, Hresolve.
      reflexivity.
    + rewrite (replaceCollection_forged w orm q q' _ _ _ _ Hforge Hresolve).
      cbv zeta. cbn [fst]. rewrite issued_forging.
      destruct manyToMany.
      * rewrite expand_manyToMany_run. cbv zeta.
        assert (Hd : forall c r m,
                   skips_lifecycle_callbacks
                     (Destroy c r (VDict (dict_set "fetch" (VBool false)
                        (MethodReplaceCollection.modifiedMeta m)))) = true).
        { intros. unfold skips_lifecycle_callbacks. cbn [call_meta get_prop].
          by rewrite modifiedMeta_without_fetch_skips. }
        assert (Hc : forall c r m,
                   skips_lifecycle_callbacks
                     (CreateEach c r (VDict (dict_set "fetch" (VBool false)
                        (MethodReplaceCollection.modifiedMeta m)))) = true).
        { intros. unfold skips_lifecycle_callbacks. cbn [call_meta get_prop].
          by rewrite modifiedMeta_without_fetch_skips. }
        destruct (truthy (arg 0 _));
          [|destruct (length_is_zero (associatedIds q')) as [[|]|]];
          cbn [fst];
          repeat first [ rewrite issued_call | rewrite issued_back
                       | rewrite Hd | rewrite Hc
                       | progress cbn [forallb andb] ];
          reflexivity.
      * rewrite expand_oneToMany_run. cbv zeta.
        assert (Hn : skips_lifecycle_callbacks (null_out schemaDef WLChild q')
                     = true).
        { unfold skips_lifecycle_callbacks, null_out. cbn [call_meta get_prop].
          by rewrite modifiedMeta_skips. }
        destruct (truthy (arg 0 _)); cbn [fst];
          rewrite issued_call, issued_back; cbn [forallb]; rewrite Hn;
          cbn [andb].
        -- reflexivity.
        -- rewrite issued_fanout.
           apply pair_updates_skip.
  - cbn [run MethodReplaceCollection.body]. rewrite Hforge.
    repeat match goal with
           | |- context [if has_code e ?c then _ else _] =>
               destruct (has_code e c)
           end; reflexivity.
Qed.

(* ================================================================== *)
(** ** replaceCollection: how the association is classified *)
(* ================================================================== *)





(** The hypothesis on the entry is used.  In [Zoo.orm] the entry [vets] of
    [pet] names the collection [vet] and references [visit], a model with
    neither a [junctionTable] flag nor a [throughTable] mapping, which no
    built schema does; the code classifies it as many-to-many all the
    same. *)
Example classification_of_a_stray_reference :
  MethodReplaceCollection.resolve Zoo.orm Zoo.replace_vets
  = MethodReplaceCollection.Resolved Zoo.Pet Zoo.vets Zoo.Visit true
  /\ MethodReplaceCollection.is_junction Zoo.Visit = false
  /\ MethodReplaceCollection.is_through Zoo.Visit = false.
Proof. repeat split. Qed.

(* ================================================================== *)
(** ** replaceCollection: where the result handler is looked for *)
(* ================================================================== *)

(** Whatever the arguments, a third argument that is not [undefined] is
    stored as [associatedIds] and the callback is read from the fourth;
    only an [undefined] third argument is read as the callback. *)
Lemma handleVariadicUsage_third_argument (query : Query) (args : list value) :
  let r := MethodReplaceCollection.handleVariadicUsage query args in
  if isUndefined (arg 2 args)
  then r.2 = VUndefined /\ associatedIds r.1 = associatedIds query
  else r.2 = arg 3 args /\ associatedIds r.1 = arg 2 args.
Proof.
  unfold MethodReplaceCollection.handleVariadicUsage.
  destruct (arg 2 args) eqn:H2; cbn [isUndefined negb];
    destruct (negb (isUndefined _)); cbn; auto.
Qed.

(** C9 fails on the code.  [execute] reads its arguments from [arguments],
    whose first element is the model [obj].  In
    [execute(Pet, [1,2], 'owners', [9], handler)] the final argument is a
    function, and the method hands [parley] the array [[9]] as explicit
    callback: the model is stored as [targetRecordIds], the target ids as
    [collectionAttrName], the attribute name as [associatedIds] and the
    handler as [meta].  And on the arguments
    [([1,2], 'owners', handler)] alone, [_handleVariadicUsage] stores the
    handler as [associatedIds] and finds no callback. *)
Theorem replaceCollection_handler_is_misplaced :
  let targets := VArr [VNum 1; VNum 2] in
  let handler := VFun "handler" in
  let p := MethodReplaceCollection.execute Zoo.Pet Zoo.orm
             [targets; VStr "owners"; VArr [VNum 9]; handler] in
  let r := MethodReplaceCollection.handleVariadicUsage
             (new_query "replaceCollection" "pet")
             [targets; VStr "owners"; handler] in
  (explicitCbMaybe p = VArr [VNum 9]
   /\ targetRecordIds (_wlQueryInfo p) = VModel "pet"
   /\ collectionAttrName (_wlQueryInfo p) = targets
   /\ associatedIds (_wlQueryInfo p) = VStr "owners"
   /\ meta (_wlQueryInfo p) = handler)
  /\ (r.2 = VUndefined /\ associatedIds r.1 = handler).
Proof. repeat split. Qed.

(* ================================================================== *)
(** ** replaceCollection on a one-to-many association *)
(* ================================================================== *)

(** When no pending call reports an error, the callbacks of a fan-out can
    fire in any order: every permutation of the pending calls is the order
    of some schedule. *)
Lemma drain_any_order (w : World) (base : nat) (order : list (nat * call)) :
  forall (pending : list (nat * call)) (step : nat),
    pending ≡ₚ order ->
    (forall tc, tc ∈ pending -> truthy (arg 0 (respond w tc.1 tc.2)) = false) ->
    exists schedule : nat -> nat,
      forall w' : World,
        respond w' = respond w ->
        (forall s, step <= s -> pick w' base s = schedule s) ->
        drain w' base (length pending) step pending
        = (map (back w) order, VNull).
Proof.
  induction order as [|x order IH]; intros pending step Hperm Hok.
  - apply Permutation_nil_r in Hperm as ->.
    exists (fun _ => 0). intros w' _ _. reflexivity.
  - assert (Hin : x ∈ pending) by (rewrite Hperm; left).
    apply list_elem_of_lookup_1 in Hin as [i Hi].
    pose proof (delete_Permutation pending i x Hi) as Hdel.
    assert (Hrest : delete i pending ≡ₚ order).
    { apply (Permutation.Permutation_cons_inv (a:=x)). by rewrite <- Hdel. }
    destruct (IH (delete i pending) (S step) Hrest) as [schedule Hschedule].
    { intros tc Htc. apply Hok. rewrite Hdel. by right. }
    exists (fun s => if Nat.eqb s step then i else schedule s).
    intros w' Hrespond Hpick.
    pose proof (lookup_lt_Some _ _ _ Hi) as Hlt.
    assert (Hlen : length pending = S (length (delete i pending))).
    { rewrite length_delete by eauto. lia. }
    rewrite Hlen at 1. cbn [drain].
    rewrite (Hpick step) by lia. rewrite Nat.eqb_refl.
    rewrite Nat.mod_small by exact Hlt. rewrite Hi.
    destruct x as [ticket c]. rewrite Hrespond.
    assert (Hquiet : truthy (arg 0 (respond w ticket c)) = false).
    { apply (Hok (ticket, c)). rewrite Hdel. left. }
    rewrite Hquiet.
    rewrite (Hschedule w' Hrespond).
    + reflexivity.
    + intros s Hs. rewrite (Hpick s) by lia.
      destruct (Nat.eqb_spec s step); [lia | reflexivity].
Qed.

(** C4.  For a forged [replaceCollection] query on a one-to-many
    association, in every world: the run issues the update that nulls out
    the [via] attribute on the children of the targets, then that update
    calls back, and only then, and only if it reported no error, the run
    issues the per-pair updates, all of them before any of their callbacks
    fires ([backs] holds callbacks only).  And the per-pair updates are not
    ordered among themselves: when no update reports an error, every
    permutation of the per-pair updates is the order in which their
    callbacks fire under some schedule, and the run ends with [done()]. *)
Theorem replaceCollection_oneToMany_order
    (w : World) (orm : Orm) (q q' : Query) (WLModel : Model)
    (schemaDef : AttrDef) (WLChild : Model) (order : list (nat * call)) :
  stage_two w q = Forged q' ->
  MethodReplaceCollection.resolve orm q'
    = MethodReplaceCollection.Resolved WLModel schemaDef WLChild false ->
  let nullOut :=
    Update (identity WLChild)
      (VDict [("where",
         VDict [(key_of (via schemaDef), VDict [("in", targetRecordIds q')])])])
      (VDict [(key_of (via schemaDef), VNull)])
      (VDict (MethodReplaceCollection.modifiedMeta q')) in
  let pairs :=
    map (fun ta =>
           Update (identity WLChild)
             (VDict [("where", VDict [(primaryKey WLChild, ta.2)])])
             (VDict [(key_of (via schemaDef), ta.1)])
             (VDict (MethodReplaceCollection.modifiedMeta q')))
        (list_prod (each_items (targetRecordIds q'))
                   (each_items (associatedIds q'))) in
  let nulled := respond w 0 nullOut in
  let start := [EvStage2 q (Forged q'); EvCall nullOut; EvBack nullOut nulled] in
  (exists backs : list event,
      (run w 0 (MethodReplaceCollection.body orm q)).1
      = start ++ (if truthy (arg 0 nulled) then []
                  else map EvCall pairs ++ backs)
      /\ issued backs = [])
  /\ (truthy (arg 0 nulled) = false ->
      (forall tc, tc ∈ tickets 1 pairs ->
                  truthy (arg 0 (respond w tc.1 tc.2)) = false) ->
      tickets 1 pairs ≡ₚ order ->
      exists schedule : nat -> nat -> nat,
        run (with_pick w schedule) 0 (MethodReplaceCollection.body orm q)
        = (start ++ map EvCall pairs ++ map (back w) order, Finished [])).
Proof.
  intros Hforge Hresolve nullOut pairs nulled start.
  assert (Hpairs : pair_updates schemaDef WLChild q' = pairs).
  { unfold pair_updates, MethodReplaceCollection.updateQueries. subst pairs.
    generalize (each_items (associatedIds q')) as A.
    induction (each_items (targetRecordIds q')) as [|t T IH]; intros A;
      [reflexivity|].
    cbn [flat_map list_prod]. rewrite !map_app, !map_map, <- IH.
    reflexivity. }
  split.
  - rewrite (replaceCollection_forged w orm q q' _ _ _ _ Hforge Hresolve).
    cbv zeta. rewrite expand_oneToMany_run. cbv zeta. rewrite Hpairs.
    change (null_out schemaDef WLChild q') with nullOut. fold nulled.
    destruct (truthy (arg 0 nulled)).
    + exists []. split; reflexivity.
    + exists ((drain w 1 (length pairs) 0 (tickets 1 pairs)).1
               ++ late w 1 (length pairs) 0 (tickets 1 pairs)).
      split; [reflexivity|].
      by rewrite issued_app, issued_drain, issued_late.
  - intros Hnulled Hok Hperm.
    destruct (drain_any_order w 1 order (tickets 1 pairs) 0 Hperm Hok)
      as [schedule Hschedule].
    exists (fun _ => schedule).
    assert (Hforge' : stage_two (with_pick w (fun _ => schedule)) q = Forged q')
      by exact Hforge.
    rewrite (replaceCollection_forged _ orm q q' _ _ _ _ Hforge' Hresolve).
    cbv zeta. rewrite expand_oneToMany_run. cbv zeta. rewrite Hpairs.
    change (null_out schemaDef WLChild q') with nullOut.
    change (respond (with_pick w (fun _ => schedule)) 0 nullOut) with nulled.
    rewrite Hnulled.
    assert (Hlen : length (tickets 1 pairs) = length pairs).
    { unfold tickets. apply length_imap. }
    rewrite <- Hlen.
    pose proof (Hschedule (with_pick w (fun _ => schedule)) eq_refl
                  (fun s _ => eq_refl)) as Hdrain.
    rewrite (late_after_success _ 1 _ 0 (tickets 1 pairs))
      by (by rewrite Hdrain).
    rewrite Hdrain, app_nil_r. reflexivity.
Qed.

Lemma replaceCollection_oneToMany_order_witness :
  let modifiedMeta := VDict [("skipAllLifecycleCallbacks", VBool true)] in
  let nullOut :=
    Update "toy"
      (VDict [("where",
         VDict [("pet", VDict [("in", VArr [VNum 1; VNum 2])])])])
      (VDict [("pet", VNull)]) modifiedMeta in
  let give (toy pet : Z) :=
    Update "toy" (VDict [("where", VDict [("id", VNum toy)])])
           (VDict [("pet", VNum pet)]) modifiedMeta in
  exists schedule : nat -> nat -> nat,
    run (with_pick Zoo.quiet schedule) 0
        (MethodReplaceCollection.body Zoo.orm Zoo.replace_toys)
    = ([EvStage2 Zoo.replace_toys (Forged Zoo.replace_toys);
        EvCall nullOut; EvBack nullOut [];
        EvCall (give 5%Z 1%Z); EvCall (give 6%Z 1%Z);
        EvCall (give 5%Z 2%Z); EvCall (give 6%Z 2%Z);
        EvBack (give 6%Z 2%Z) []; EvBack (give 5%Z 2%Z) [];
        EvBack (give 6%Z 1%Z) []; EvBack (give 5%Z 1%Z) []],
       Finished []).
Proof.
  intros modifiedMeta nullOut give.
  destruct (replaceCollection_oneToMany_order Zoo.quiet Zoo.orm
              Zoo.replace_toys Zoo.replace_toys Zoo.Pet Zoo.toys Zoo.Toy
              [(4, give 6%Z 2%Z); (3, give 5%Z 2%Z); (2, give 6%Z 1%Z); (1, give 5%Z 1%Z)]
              eq_refl eq_refl) as [_ Hany].
  apply Hany.
  - reflexivity.
  - intros tc _. reflexivity.
  - exact (Permutation_rev
             [(1, give 5%Z 1%Z); (2, give 6%Z 1%Z); (3, give 5%Z 2%Z); (4, give 6%Z 2%Z)]).
Defined.

(* ================================================================== *)
(** ** find: what reaches the helper, and what reaches [done] *)
(* ================================================================== *)

Lemma has_code_inv (e : jserror) (c : string) :
  has_code e c = true -> err_code e = Some c.
Proof.
  unfold has_code. destruct (err_code e) as [c'|]; [|done].
  by intros ->%String.eqb_eq.
Qed.

(** The run of [find] once stage 2 let the query through. *)
Lemma find_run_forged (w : World) (obj : Model) (q q' : Query) :
  stage_two w q = Forged q' ->
  let helpFind := HelpFind (identity obj) q' in
  let found := respond w 0 helpFind in
  let result := process_records w (arg 1 found) (meta q') (identity obj) in
  run w 0 (MethodFind.body obj q)
  = if truthy (arg 0 found) then
      ([EvStage2 q (Forged q'); EvCall helpFind; EvBack helpFind found],
       Finished [arg 0 found])
    else
      ([EvStage2 q (Forged q'); EvCall helpFind; EvBack helpFind found;
        EvProcess (arg 1 found) (meta q') (identity obj) result],
       Finished (match result with
                 | Returned records => [VUndefined; records]
                 | Threw e => [VErr e]
                 end)).
Proof.
  intros Hforge helpFind found result.
  cbn [run MethodFind.body]. rewrite Hforge. cbn [run].
  fold helpFind. fold found.
  destruct (truthy (arg 0 found)); [reflexivity|].
  cbn [run]. fold result. by destruct result.
Qed.

(** The run of [find] once stage 2 threw. *)
Lemma find_run_failed (w : World) (obj : Model) (q q' : Query) (e : jserror) :
  stage_two w q = Failed e q' ->
  run w 0 (MethodFind.body obj q)
  = ([EvStage2 q (Failed e q')],
     Finished
       (if has_code e "E_INVALID_CRITERIA" then
          [VErr (usage_error ("Invalid criteria." +:+ nl +:+ "Details:"
                              +:+ nl +:+ details_line e))]
        else if has_code e "E_INVALID_POPULATES" then
          [VErr (usage_error ("Invalid populate(s)." +:+ nl +:+ "Details:"
                              +:+ nl +:+ details_line e))]
        else if has_code e "E_NOOP" then [VUndefined; VArr []]
        else [VErr e])).
Proof.
  intros Hforge. cbn [run MethodFind.body]. rewrite Hforge.
  repeat match goal with
         | |- context [if has_code e ?c then _ else _] =>
             destruct (has_code e c)
         end; reflexivity.
Qed.

(** X1.  Whenever [find] hands [done] a result, that is, calls
    [done(undefined, r)], either stage 2 raised [E_NOOP] and [r] is the
    empty array, or [r] is the array [processAllRecords] let through in
    that run: no record reaches the caller unprocessed. *)
Theorem find_result_was_processed (w : World) (obj : Model) (q : Query)
    (r : value) :
  (run w 0 (MethodFind.body obj q)).2 = Finished [VUndefined; r] ->
  (r = VArr []
   /\ exists e q', stage_two w q = Failed e q' /\ err_code e = Some "E_NOOP")
  \/ processed (run w 0 (MethodFind.body obj q)).1 = [r].
Proof.
  destruct (stage_two w q) as [q'|e q'] eqn:Hforge.
  - rewrite (find_run_forged w obj q q' Hforge). cbv zeta.
    destruct (truthy (arg 0 _)); cbn [fst snd]; [discriminate|].
    destruct (process_records w _ _ _) as [records|e]; [|discriminate].
    intros [= <-]. right. reflexivity.
  - rewrite (find_run_failed w obj q q' e Hforge). cbn [fst snd].
    destruct (has_code e "E_INVALID_CRITERIA"); [discriminate|].
    destruct (has_code e "E_INVALID_POPULATES"); [discriminate|].
    destruct (has_code e "E_NOOP") eqn:Hnoop; [|discriminate].
    intros [= <-]. left. split; [reflexivity|].
    exists e, q'. split; [reflexivity | by apply has_code_inv].
Qed.

Lemma find_result_was_processed_witness :
  let w := Kennel.answering (fun _ => [VUndefined; VArr [Zoo.rex]]) in
  let q := set_criteria Zoo.named_rex (new_query "find" "pet") in
  processed (run w 0 (MethodFind.body Zoo.Pet q)).1 = [VArr [Zoo.rex]].
Proof.
  intros w q.
  destruct (find_result_was_processed w Zoo.Pet q (VArr [Zoo.rex]) eq_refl)
    as [[Hempty _]|Hprocessed]; [discriminate Hempty | exact Hprocessed].
Defined.

(** X2.  When stage 2 throws an error other than [E_NOOP], [find] issues no
    call and hands [done] one error.  For the codes [E_INVALID_CRITERIA]
    and [E_INVALID_POPULATES] it is a new error named [UsageError] that
    has no [code] and whose message ends with the details of the forger's
    error and a newline; for every other code it is the forger's error
    itself. *)
Theorem find_stage_two_errors (w : World) (obj : Model) (q q' : Query)
    (e : jserror) (details : string) :
  stage_two w q = Failed e q' ->
  err_details e = Some details ->
  has_code e "E_NOOP" = false ->
  exists u : jserror,
    run w 0 (MethodFind.body obj q)
    = ([EvStage2 q (Failed e q')], Finished [VErr u])
    /\ if has_code e "E_INVALID_CRITERIA" || has_code e "E_INVALID_POPULATES"
       then err_name u = "UsageError" /\ err_code u = None
            /\ exists prefix, err_message u = prefix +:+ details +:+ nl
       else u = e.
Proof.
  intros Hforge Hdetails Hnoop.
  rewrite (find_run_failed w obj q q' e Hforge), Hnoop.
  unfold details_line. rewrite Hdetails. cbn [default].
  destruct (has_code e "E_INVALID_CRITERIA") eqn:Hc; cbn [orb].
  - eexists. split; [reflexivity|]. cbn. repeat split.
    by exists ("Invalid criteria." +:+ nl +:+ "Details:" +:+ nl +:+ "  ").
  - destruct (has_code e "E_INVALID_POPULATES") eqn:Hp.
    + eexists. split; [reflexivity|]. cbn. repeat split.
      by exists ("Invalid populate(s)." +:+ nl +:+ "Details:" +:+ nl +:+ "  ").
    + exists e. split; reflexivity.
Qed.

Lemma find_stage_two_errors_witness :
  let e := Kennel.forger_error "E_INVALID_POPULATES" "No such association." in
  let q := new_query "find" "pet" in
  exists u : jserror,
    run (Kennel.rejecting e) 0 (MethodFind.body Zoo.Pet q)
    = ([EvStage2 q (Failed e q)], Finished [VErr u])
    /\ err_name u = "UsageError" /\ err_code u = None
    /\ exists prefix, err_message u = prefix +:+ "No such association." +:+ nl.
Proof.
  intros e q.
  destruct (find_stage_two_errors (Kennel.rejecting e) Zoo.Pet q q e
              "No such association." eq_refl eq_refl eq_refl)
    as (u & Hrun & Hu).
  exists u. split; [exact Hrun | exact Hu].
Defined.

Lemma errors_back (c : call) (args : list value) (tr : list event) :
  errors (EvBack c args :: tr)
  = if truthy (arg 0 args) then arg 0 args :: errors tr else errors tr.
Proof. unfold errors. cbn. by destruct (truthy (arg 0 args)). Qed.

Lemma errors_call (c : call) (tr : list event) :
  errors (EvCall c :: tr) = errors tr.
Proof. reflexivity. Qed.

Lemma errors_forging (q : Query) (r : forged) (tr : list event) :
  errors (EvStage2 q r :: tr) = errors tr.
Proof. reflexivity. Qed.

Lemma errors_process (records m : value) (id : string) (r : outcome value)
    (tr : list event) :
  errors (EvProcess records m id r :: tr) = errors tr.
Proof. reflexivity. Qed.

Lemma errors_app (tr1 tr2 : list event) :
  errors (tr1 ++ tr2) = errors tr1 ++ errors tr2.
Proof. apply omap_app. Qed.

Lemma errors_calls (cs : list call) : errors (map EvCall cs) = [].
Proof. by induction cs. Qed.

Create Rewrite HintDb trace_errors.
#[local] Hint Rewrite errors_back errors_call errors_forging errors_process
  errors_app errors_calls : trace_errors.

(** X3.  When the callback of [helpFind] reports an error, [find] hands
    exactly that error to [done] and [processAllRecords] is not called. *)
Theorem find_helper_error_skips_processing (w : World) (obj : Model)
    (q : Query) (err : value) :
  err ∈ errors (run w 0 (MethodFind.body obj q)).1 ->
  (run w 0 (MethodFind.body obj q)).2 = Finished [err]
  /\ Forall (fun ev => match ev with EvProcess _ _ _ _ => False | _ => True end)
            (run w 0 (MethodFind.body obj q)).1.
Proof.
  destruct (stage_two w q) as [q'|e q'] eqn:Hforge.
  - rewrite (find_run_forged w obj q q' Hforge). cbv zeta.
    destruct (truthy (arg 0 _)) eqn:Herr; cbn [fst snd].
    + autorewrite with trace_errors. rewrite Herr.
      intros ->%list_elem_of_singleton. split; [reflexivity|].
      repeat constructor.
    + autorewrite with trace_errors. rewrite Herr. intros []%not_elem_of_nil.
  - rewrite (find_run_failed w obj q q' e Hforge). cbn [fst snd].
    autorewrite with trace_errors. intros []%not_elem_of_nil.
Qed.

Lemma find_helper_error_skips_processing_witness :
  let w := Kennel.answering (fun _ => [Kennel.down]) in
  let q := new_query "find" "pet" in
  (run w 0 (MethodFind.body Zoo.Pet q)).2 = Finished [Kennel.down].
Proof.
  intros w q.
  apply (find_helper_error_skips_processing w Zoo.Pet q Kennel.down).
  vm_compute. left.
Defined.

(* ================================================================== *)
(** ** count: when stage 3 and the adapter are reached *)
(* ================================================================== *)

(** The run of [count] once stage 2 let the query through. *)
Lemma count_run_forged (w : World) (obj : Model) (q q' : Query) :
  stage_two w q = Forged q' ->
  let id := identity obj in
  let staged := stage_three w q' id in
  run w 0 (MethodCount.body obj q)
  = match staged with
    | Threw e =>
        ([EvStage2 q (Forged q'); EvStage3 q' id staged], Finished [VErr e])
    | Returned q3 =>
        if adapter_count obj then
          let count := AdapterCount id (datastore obj) q3 in
          let answer := respond w 0 count in
          ([EvStage2 q (Forged q'); EvStage3 q' id staged;
            EvCall count; EvBack count answer],
           Finished (if truthy (arg 0 answer)
                     then [VAdapterErr (arg 0 answer) "count" id]
                     else [VUndefined; arg 1 answer]))
        else
          ([EvStage2 q (Forged q'); EvStage3 q' id staged],
           Finished [VErr (new_Error
             ("The adapter used by this model (`" +:+ id +:+
              "`) doesn't support the `" +:+ method q3 +:+ "` method."))])
    end.
Proof.
  intros Hforge id staged.
  cbn [run MethodCount.body]. rewrite Hforge. cbn [run]. fold id. fold staged.
  destruct staged as [q3|e]; [|reflexivity].
  destruct (adapter_count obj); cbn [negb run]; [|reflexivity].
  by destruct (truthy (arg 0 _)).
Qed.

(** The run of [count] once stage 2 threw. *)
Lemma count_run_failed (w : World) (obj : Model) (q q' : Query) (e : jserror) :
  stage_two w q = Failed e q' ->
  run w 0 (MethodCount.body obj q)
  = ([EvStage2 q (Failed e q')],
     Finished (if has_code e "E_NOOP" then [VUndefined; VNum 0]
               else [VErr e])).
Proof.
  intros Hforge. cbn [run MethodCount.body]. rewrite Hforge.
  destruct (has_code e "E_NOOP") eqn:Hnoop.
  - pose proof (has_code_inv _ _ Hnoop) as Hcode. switch_on_code Hcode.
    reflexivity.
  - by destruct (has_code e "E_INVALID_CRITERIA" || has_code e "E_INVALID_META").
Qed.

(** X4.  In every run of [count], stage-3 forging is reached exactly when
    stage 2 let the query through, and the adapter is contacted at most
    once: exactly when stage 3 returned a query and the adapter has a
    [count] method, and then with the model's datastore and the stage-3
    query. *)
Theorem count_adapter_contact (w : World) (obj : Model) (q : Query) :
  let tr := (run w 0 (MethodCount.body obj q)).1 in
  reached_stage_three tr
  = match stage_two w q with Forged _ => true | Failed _ _ => false end
  /\ issued tr
     = match stage_two w q with
       | Forged q' =>
           match stage_three w q' (identity obj) with
           | Returned q3 =>
               if adapter_count obj
               then [AdapterCount (identity obj) (datastore obj) q3]
               else []
           | Threw _ => []
           end
       | Failed _ _ => []
       end.
Proof.
  cbv zeta. destruct (stage_two w q) as [q'|e q'] eqn:Hforge.
  - rewrite (count_run_forged w obj q q' Hforge). cbv zeta.
    destruct (stage_three w q' (identity obj)) as [q3|e];
      [destruct (adapter_count obj)|]; split; reflexivity.
  - rewrite (count_run_failed w obj q q' e Hforge). split; reflexivity.
Qed.

(** X5.  When the adapter of the model has no [count] method, a query that
    passes both forgers ends with [done] receiving a plain [Error] that
    names the model and the method of the stage-3 query; no call is
    issued. *)
Theorem count_without_adapter_method (w : World) (obj : Model)
    (q q' q3 : Query) :
  stage_two w q = Forged q' ->
  stage_three w q' (identity obj) = Returned q3 ->
  adapter_count obj = false ->
  let r := run w 0 (MethodCount.body obj q) in
  issued r.1 = []
  /\ r.2 = Finished [VErr (JsError "Error" None None
             ("The adapter used by this model (`" +:+ identity obj +:+
              "`) doesn't support the `" +:+ method q3 +:+ "` method."))].
Proof.
  intros Hforge Hstaged Hadapter r. subst r.
  rewrite (count_run_forged w obj q q' Hforge). cbv zeta.
  rewrite Hstaged, Hadapter. split; reflexivity.
Qed.

Lemma count_without_adapter_method_witness :
  (run Zoo.quiet 0 (MethodCount.body Kennel.Log (new_query "count" "log"))).2
  = Finished [VErr (JsError "Error" None None
      "The adapter used by this model (`log`) doesn't support the `count` method.")].
Proof.
  apply (count_without_adapter_method Zoo.quiet Kennel.Log
           (new_query "count" "log") (new_query "count" "log")
           (new_query "count" "log")); reflexivity.
Defined.

(** X6.  Whenever [count] hands [done] a number, that is, calls
    [done(undefined, n)], either stage 2 raised [E_NOOP] and [n] is 0, or
    [n] is the second argument of the callback of the adapter's [count],
    which reported no error. *)
Theorem count_result_is_the_adapters (w : World) (obj : Model) (q : Query)
    (n : value) :
  (run w 0 (MethodCount.body obj q)).2 = Finished [VUndefined; n] ->
  (n = VNum 0
   /\ exists e q', stage_two w q = Failed e q' /\ err_code e = Some "E_NOOP")
  \/ exists (ds : string) (q3 : Query) (answer : list value),
       EvBack (AdapterCount (identity obj) ds q3) answer
         ∈ (run w 0 (MethodCount.body obj q)).1
       /\ truthy (arg 0 answer) = false /\ n = arg 1 answer.
Proof.
  destruct (stage_two w q) as [q'|e q'] eqn:Hforge.
  - rewrite (count_run_forged w obj q q' Hforge). cbv zeta.
    destruct (stage_three w q' (identity obj)) as [q3|e]; [|discriminate].
    destruct (adapter_count obj); [|discriminate]. cbn [fst snd].
    destruct (truthy (arg 0 _)) eqn:Herr; [discriminate|].
    intros [= <-]. right. eexists _, _, _. split; [|split; [exact Herr|done]].
    do 3 right. left.
  - rewrite (count_run_failed w obj q q' e Hforge). cbn [fst snd].
    destruct (has_code e "E_NOOP") eqn:Hnoop; [|discriminate].
    intros [= <-]. left. split; [reflexivity|].
    exists e, q'. split; [reflexivity | by apply has_code_inv].
Qed.

Lemma count_result_is_the_adapters_witness :
  let w := Kennel.answering (fun _ => [VUndefined; VNum 3]) in
  let q := new_query "count" "pet" in
  exists (ds : string) (q3 : Query) (answer : list value),
    EvBack (AdapterCount "pet" ds q3) answer
      ∈ (run w 0 (MethodCount.body Zoo.Pet q)).1
    /\ truthy (arg 0 answer) = false /\ VNum 3 = arg 1 answer.
Proof.
  intros w q.
  destruct (count_result_is_the_adapters w Zoo.Pet q (VNum 3) eq_refl)
    as [[Hzero _]|Hadapter]; [discriminate Hzero | exact Hadapter].
Defined.

(** X7.  When the callback of the adapter's [count] reports an error,
    [done] receives that error wrapped by [forgeAdapterError] for the
    method [count] and the model, never the raw error. *)
Theorem count_adapter_error_is_wrapped (w : World) (obj : Model) (q : Query)
    (err : value) :
  err ∈ errors (run w 0 (MethodCount.body obj q)).1 ->
  (run w 0 (MethodCount.body obj q)).2
  = Finished [VAdapterErr err "count" (identity obj)].
Proof.
  destruct (stage_two w q) as [q'|e q'] eqn:Hforge.
  - rewrite (count_run_forged w obj q q' Hforge). cbv zeta.
    destruct (stage_three w q' (identity obj)) as [q3|e];
      [destruct (adapter_count obj)|]; cbn [fst snd];
      try (intros []%not_elem_of_nil).
    change (errors (EvStage2 ?a ?b :: EvStage3 ?c ?d ?e :: ?tr))
      with (errors tr).
    autorewrite with trace_errors.
    destruct (truthy (arg 0 _)).
    + by intros ->%list_elem_of_singleton.
    + intros []%not_elem_of_nil.
  - rewrite (count_run_failed w obj q q' e Hforge). cbn [fst snd].
    intros []%not_elem_of_nil.
Qed.

Lemma count_adapter_error_is_wrapped_witness :
  let w := Kennel.answering (fun _ => [Kennel.down]) in
  (run w 0 (MethodCount.body Zoo.Pet (new_query "count" "pet"))).2
  = Finished [VAdapterErr Kennel.down "count" "pet"].
Proof.
  intros w.
  apply (count_adapter_error_is_wrapped w Zoo.Pet (new_query "count" "pet")
           Kennel.down).
  vm_compute. left.
Defined.

(* ================================================================== *)
(** ** findOrCreate: its calls, its criteria and its meta *)
(* ================================================================== *)

(** X8.  A run of [findOrCreate] issues no call, or one [findOne], or one
    [findOne] followed by one [create], always on the model itself; and
    when a [create] is issued the run is exactly: the stage-2 call, the
    [findOne], its callback, with no error and no record, then the
    [create], then its callback.  So the [create] is issued only after the
    callback of the [findOne] fired with no error and no record. *)
Theorem findOrCreate_creates_at_most_once (w : World) (obj : Model)
    (q : Query) :
  let tr := (run w 0 (MethodFindOrCreate.body obj q)).1 in
  match issued tr with
  | [] => True
  | [FindOne m _ _] => m = identity obj
  | [FindOne m c mt; Create m' record mt'] =>
      m = identity obj /\ m' = identity obj
      /\ exists found created : list value,
           tr = [EvStage2 q (stage_two w q);
                 EvCall (FindOne m c mt); EvBack (FindOne m c mt) found;
                 EvCall (Create m' record mt');
                 EvBack (Create m' record mt') created]
           /\ truthy (arg 0 found) = false
           /\ truthy (arg 1 found) = false
  | _ => False
  end.
Proof.
  cbv zeta.
  assert (Hafter : forall q',
    let tr := (run w 0 (MethodFindOrCreate.find_then_create obj q')).1 in
    match issued tr with
    | [] => True
    | [FindOne m _ _] => m = identity obj
    | [FindOne m c mt; Create m' record mt'] =>
        m = identity obj /\ m' = identity obj
        /\ exists found created : list value,
             tr = [EvCall (FindOne m c mt); EvBack (FindOne m c mt) found;
                   EvCall (Create m' record mt');
                   EvBack (Create m' record mt') created]
             /\ truthy (arg 0 found) = false
             /\ truthy (arg 1 found) = false
    | _ => False
    end).
  { intros q'. cbv zeta. unfold MethodFindOrCreate.find_then_create.
    destruct (MethodFindOrCreate.delete_paging (criteria q')) as [c|];
      [|exact I].
    cbn [run]. unfold MethodFindOrCreate._afterPotentiallyFinding.
    destruct (truthy (arg 0 (respond w 0 _))) eqn:Herr; [reflexivity|].
    destruct (truthy (arg 1 (respond w 0 _))) eqn:Hfound; [reflexivity|].
    destruct (get_prop _ _) as [pk|]; [|reflexivity].
    cbn [run]. destruct (truthy (arg 0 (respond w 1 _)));
      (split; [reflexivity|]; split; [reflexivity|]);
      (eexists _, _; split; [reflexivity | split; [exact Herr | exact Hfound]]). }
  destruct (MethodFindOrCreate.after_forging (stage_two w q)) as [q'|]
    eqn:Hgo.
  - rewrite (findOrCreate_after_forging w obj q q' Hgo). cbn [fst].
    rewrite issued_forging. specialize (Hafter q'). cbv zeta in Hafter.
    destruct (issued _) as [|[] [|[] []]]; try exact Hafter.
    destruct Hafter as (-> & -> & found & created & -> & Herr & Hfound).
    repeat split. by exists found, created.
  - destruct (stage_two w q) as [q'|e q'] eqn:Hforge; [discriminate|].
    cbn in Hgo. destruct (has_code e "E_NOOP") eqn:Hnoop; [discriminate|].
    cbn [run MethodFindOrCreate.body]. rewrite Hforge, Hnoop.
    destruct (has_code e "E_INVALID_CRITERIA"),
             (has_code e "E_INVALID_NEW_RECORDS"); exact I.
Qed.

(** X9.  When the query reaches the code after the try block with a
    [newRecord] that is [undefined] or [null] and the [findOne] comes back
    with no error and no record, reading the primary key of the new
    record throws: the exception escapes the callback, no [create] is
    issued and [done] is never called. *)
Theorem findOrCreate_without_new_record_throws (w : World) (obj : Model)
    (q q' : Query) (c : value) :
  MethodFindOrCreate.after_forging (stage_two w q) = Some q' ->
  MethodFindOrCreate.delete_paging (criteria q') = Some c ->
  isUndefined (newRecord q') || isNull (newRecord q') = true ->
  let findOne := FindOne (identity obj) c (meta q') in
  let found := respond w 0 findOne in
  truthy (arg 0 found) = false ->
  truthy (arg 1 found) = false ->
  run w 0 (MethodFindOrCreate.body obj q)
  = ([EvStage2 q (stage_two w q); EvCall findOne; EvBack findOne found],
     Crashed (type_error (primaryKey obj))).
Proof.
  intros Hgo Hpaging Hnone findOne found Herr Hfound.
  rewrite (findOrCreate_after_forging w obj q q' Hgo).
  unfold MethodFindOrCreate.find_then_create. rewrite Hpaging.
  cbn [run criteria meta set_criteria fst snd]. fold findOne. fold found.
  unfold MethodFindOrCreate._afterPotentiallyFinding.
  rewrite Herr, Hfound. cbn [newRecord set_criteria].
  destruct (newRecord q'); try discriminate Hnone; reflexivity.
Qed.

Lemma findOrCreate_without_new_record_throws_witness :
  let q := set_criteria Zoo.nothing (new_query "findOrCreate" "pet") in
  let findOne := FindOne "pet" Zoo.nothing VUndefined in
  run Zoo.strict 0 (MethodFindOrCreate.body Zoo.Pet q)
  = ([EvStage2 q (stage_two Zoo.strict q); EvCall findOne; EvBack findOne []],
     Crashed (type_error "id")).
Proof.
  apply (findOrCreate_without_new_record_throws Zoo.strict Zoo.Pet
           (set_criteria Zoo.nothing (new_query "findOrCreate" "pet"))
           (set_criteria Zoo.nothing (new_query "findOrCreate" "pet"))
           Zoo.nothing); reflexivity.
Defined.

Lemma assoc_not_in {A : Type} (k : string) (o : list (string * A)) :
  k ∉ o.*1 -> assoc k o = None.
Proof.
  induction o as [|[k' v] o IH]; [reflexivity|]. cbn.
  intros Hnot. apply not_elem_of_cons in Hnot as [Hne Hnot].
  destruct (String.eqb_spec k k'); [done | by apply IH].
Qed.

(** [_.extend(target, source)] reads as [source] where [source] has the
    key and as [target] elsewhere. *)
Lemma dict_get_extend (k : string) (source : dict) :
  NoDup source.*1 ->
  forall target : dict,
    dict_get k (dict_extend target source)
    = match dict_get k source with
      | Some v => Some v
      | None => dict_get k target
      end.
Proof.
  unfold dict_extend.
  induction source as [|[k0 v0] source IH]; intros Hnodup target;
    [reflexivity|].
  rewrite fmap_cons in Hnodup. apply NoDup_cons in Hnodup as [Hfresh Hnodup].
  cbn [foldl fst snd] in *. rewrite (IH Hnodup).
  change (dict_get k ((k0, v0) :: source))
    with (if String.eqb k k0 then Some v0 else dict_get k source).
  destruct (String.eqb_spec k k0) as [->|Hne].
  - assert (Hnone : dict_get k0 source = None) by by apply assoc_not_in.
    rewrite Hnone. apply dict_get_set_eq.
  - destruct (dict_get k source); [reflexivity|].
    by apply dict_get_set_ne.
Qed.

(** X10.  The meta [findOrCreate] gives to its [create] is the caller's
    meta (a dictionary, whose keys are distinct) with [fetch] set to
    [true]: every other key reads as in the caller's meta, whatever the
    caller's own [fetch] was. *)
Theorem findOrCreate_meta_keeps_the_callers_keys (q : Query) (m : dict)
    (k : string) :
  meta q = VDict m ->
  NoDup m.*1 ->
  get_prop (MethodFindOrCreate.modifiedMeta q) k
  = Some (if String.eqb k "fetch" then VBool true
          else default VUndefined (dict_get k m)).
Proof.
  intros Hmeta Hnodup. unfold MethodFindOrCreate.modifiedMeta.
  rewrite Hmeta. cbn [or_empty truthy own_props get_prop]. f_equal.
  change (dict_extend (dict_extend [] m) [("fetch", VBool true)])
    with (dict_set "fetch" (VBool true) (dict_extend [] m)).
  destruct (String.eqb_spec k "fetch") as [->|Hne].
  - by rewrite dict_get_set_eq.
  - rewrite dict_get_set_ne by exact Hne.
    rewrite (dict_get_extend k m Hnodup []).
    by destruct (dict_get k m).
Qed.

Lemma findOrCreate_meta_keeps_the_callers_keys_witness :
  let q := set_meta (VDict [("fetch", VBool false);
                            ("leasedConnection", VStr "db7")])
                    Zoo.find_or_create_rex in
  get_prop (MethodFindOrCreate.modifiedMeta q) "leasedConnection"
  = Some (VStr "db7")
  /\ get_prop (MethodFindOrCreate.modifiedMeta q) "fetch"
     = Some (VBool true).
Proof.
  intros q. split.
  - apply (findOrCreate_meta_keeps_the_callers_keys q
             [("fetch", VBool false); ("leasedConnection", VStr "db7")]
             "leasedConnection"); [reflexivity|].
    apply (bool_decide_unpack _). vm_compute. exact I.
  - apply (findOrCreate_meta_keeps_the_callers_keys q
             [("fetch", VBool false); ("leasedConnection", VStr "db7")]
             "fetch"); [reflexivity|].
    apply (bool_decide_unpack _). vm_compute. exact I.
Defined.

Lemma dict_get_delete (k k' : string) (d : dict) :
  dict_get k (dict_delete k' d)
  = if String.eqb k k' then None else dict_get k d.
Proof.
  unfold dict_get. induction d as [|[k0 v0] d IH]; cbn.
  - by destruct (String.eqb k k').
  - destruct (String.eqb_spec k' k0) as [->|Hne0]; cbn.
    + rewrite IH. by destruct (String.eqb_spec k k0).
    + rewrite IH. destruct (String.eqb_spec k k0) as [->|Hne];
        [|reflexivity].
      by destruct (String.eqb_spec k0 k').
Qed.

(** X11.  The criteria [findOrCreate] gives to its [findOne] is the forged
    criteria without its [limit], [skip] and [sort]: those three keys are
    gone, and every other key reads as in the forged criteria. *)
Theorem findOrCreate_findOne_criteria (w : World) (obj : Model)
    (q q' : Query) (d : dict) (k : string) :
  MethodFindOrCreate.after_forging (stage_two w q) = Some q' ->
  criteria q' = VDict d ->
  exists d' : dict,
    head (issued (run w 0 (MethodFindOrCreate.body obj q)).1)
    = Some (FindOne (identity obj) (VDict d') (meta q'))
    /\ dict_get k d'
       = if existsb (String.eqb k) ["limit"; "skip"; "sort"] then None
         else dict_get k d.
Proof.
  intros Hgo Hcriteria.
  exists (dict_delete "sort" (dict_delete "skip" (dict_delete "limit" d))).
  split.
  - rewrite (findOrCreate_after_forging w obj q q' Hgo). cbn [fst].
    rewrite issued_forging.
    unfold MethodFindOrCreate.find_then_create,
           MethodFindOrCreate.delete_paging.
    rewrite Hcriteria. cbn [delete_prop mbind option_bind].
    cbn [run]. by destruct (run w 1 _).
  - rewrite !dict_get_delete. cbn [existsb].
    destruct (String.eqb k "limit"), (String.eqb k "skip"),
             (String.eqb k "sort"); reflexivity.
Qed.

Lemma findOrCreate_findOne_criteria_witness :
  let paged :=
    [("where", VDict [("name", VStr "Rex")]); ("limit", VNum 1);
     ("skip", VNum 0); ("sort", VArr [])] in
  let q := set_criteria (VDict paged) Zoo.find_or_create_rex in
  exists d' : dict,
    head (issued (run Zoo.quiet 0 (MethodFindOrCreate.body Zoo.Pet q)).1)
    = Some (FindOne "pet" (VDict d') VUndefined)
    /\ dict_get "limit" d' = None.
Proof.
  intros paged q.
  destruct (findOrCreate_findOne_criteria Zoo.quiet Zoo.Pet q q paged "limit"
              eq_refl eq_refl) as (d' & Hcall & Hkey).
  exists d'. split; [exact Hcall | exact Hkey].
Defined.

(** X12.  When stage 2 throws an error other than [E_NOOP], [findOrCreate]
    issues neither a [findOne] nor a [create] and hands [done] one error:
    for the codes [E_INVALID_CRITERIA] and [E_INVALID_NEW_RECORDS] a new
    error named [UsageError], without a [code], whose message ends with
    the details of the forger's error and a newline; for every other code
    the forger's error itself. *)
Theorem findOrCreate_stage_two_errors (w : World) (obj : Model)
    (q q' : Query) (e : jserror) (details : string) :
  stage_two w q = Failed e q' ->
  err_details e = Some details ->
  has_code e "E_NOOP" = false ->
  exists u : jserror,
    run w 0 (MethodFindOrCreate.body obj q)
    = ([EvStage2 q (Failed e q')], Finished [VErr u])
    /\ if has_code e "E_INVALID_CRITERIA" || has_code e "E_INVALID_NEW_RECORDS"
       then err_name u = "UsageError" /\ err_code u = None
            /\ exists prefix, err_message u = prefix +:+ details +:+ nl
       else u = e.
Proof.
  intros Hforge Hdetails Hnoop.
  cbn [run MethodFindOrCreate.body]. rewrite Hforge, Hnoop.
  unfold details_line. rewrite Hdetails. cbn [default].
  destruct (has_code e "E_INVALID_CRITERIA") eqn:Hc; cbn [orb].
  - eexists. split; [reflexivity|]. cbn. repeat split.
    by exists ("Invalid criteria." +:+ nl +:+ "Details:" +:+ nl +:+ "  ").
  - destruct (has_code e "E_INVALID_NEW_RECORDS") eqn:Hp.
    + eexists. split; [reflexivity|]. cbn. repeat split.
      by exists ("Invalid new record(s)." +:+ nl +:+ "Details:" +:+ nl +:+ "  ").
    + exists e. split; reflexivity.
Qed.

Lemma findOrCreate_stage_two_errors_witness :
  let e := Kennel.forger_error "E_INVALID_NEW_RECORDS" "Missing `name`." in
  let q := new_query "findOrCreate" "pet" in
  exists u : jserror,
    run (Kennel.rejecting e) 0 (MethodFindOrCreate.body Zoo.Pet q)
    = ([EvStage2 q (Failed e q)], Finished [VErr u])
    /\ err_name u = "UsageError" /\ err_code u = None
    /\ exists prefix, err_message u = prefix +:+ "Missing `name`." +:+ nl.
Proof.
  intros e q.
  destruct (findOrCreate_stage_two_errors (Kennel.rejecting e) Zoo.Pet q q e
              "Missing `name`." eq_refl eq_refl eq_refl)
    as (u & Hrun & Hu).
  exists u. split; [exact Hrun | exact Hu].
Defined.

(* ================================================================== *)
(** ** replaceCollection: what reaches [done] *)
(* ================================================================== *)

(** The run of [replaceCollection] once stage 2 threw. *)
Lemma replaceCollection_run_failed (w : World) (orm : Orm) (q q' : Query)
    (e : jserror) :
  stage_two w q = Failed e q' ->
  exists args,
    run w 0 (MethodReplaceCollection.body orm q)
    = ([EvStage2 q (Failed e q')], Finished args)
    /\ (args = [] /\ has_code e "E_NOOP" = true
        \/ exists u, args = [VErr u] /\ has_code e "E_NOOP" = false
           /\ if has_code e "E_INVALID_TARGET_RECORD_IDS"
                 || has_code e "E_INVALID_COLLECTION_ATTR_NAME"
                 || has_code e "E_INVALID_ASSOCIATED_IDS"
              then err_name u = "UsageError" /\ err_code u = None
                   /\ exists prefix,
                        err_message u = prefix +:+ details_line e
              else u = e).
Proof.
  intros Hforge. cbn [run MethodReplaceCollection.body]. rewrite Hforge.
  destruct (has_code e "E_NOOP") eqn:Hnoop.
  - pose proof (has_code_inv _ _ Hnoop) as Hcode. switch_on_code Hcode.
    eexists. split; [reflexivity|]. by left.
  - destruct (has_code e "E_INVALID_TARGET_RECORD_IDS") eqn:H1; cbn [orb].
    { eexists. split; [reflexivity|]. right. eexists.
      split; [reflexivity|]. split; [reflexivity|]. cbn. repeat split.
      by exists
        ("The target record ids (i.e. first argument) passed to `.replaceCollection()` " +:+
         "should be the ID (or IDs) of target records whose collection will be modified." +:+ nl +:+
         "Details:" +:+ nl). }
    destruct (has_code e "E_INVALID_COLLECTION_ATTR_NAME") eqn:H2; cbn [orb].
    { eexists. split; [reflexivity|]. right. eexists.
      split; [reflexivity|]. split; [reflexivity|]. cbn. repeat split.
      by exists
        ("The collection attr name (i.e. second argument) to `.replaceCollection()` should " +:+
         "be the name of a collection association from this model." +:+ nl +:+
         "Details:" +:+ nl). }
    destruct (has_code e "E_INVALID_ASSOCIATED_IDS") eqn:H3.
    { eexists. split; [reflexivity|]. right. eexists.
      split; [reflexivity|]. split; [reflexivity|]. cbn. repeat split.
      by exists
        ("The associated ids (i.e. using `.members()`, or the third argument) passed to `.replaceCollection()` should be " +:+
         "the ID (or IDs) of associated records to use." +:+ nl +:+
         "Details:" +:+ nl). }
    exists [VErr e]. split; [by destruct (has_code e "E_INVALID_META")|].
    right. by exists e.
Qed.

(** X13.  When stage 2 throws an error other than [E_NOOP],
    [replaceCollection] looks up no model and issues no call, and hands
    [done] one error: for the codes [E_INVALID_TARGET_RECORD_IDS],
    [E_INVALID_COLLECTION_ATTR_NAME] and [E_INVALID_ASSOCIATED_IDS] a new
    error named [UsageError], without a [code], whose message ends with
    the details of the forger's error and a newline; for every other code
    ([E_INVALID_META] included) the forger's error itself. *)
Theorem replaceCollection_stage_two_errors (w : World) (orm : Orm)
    (q q' : Query) (e : jserror) (details : string) :
  stage_two w q = Failed e q' ->
  err_details e = Some details ->
  has_code e "E_NOOP" = false ->
  exists u : jserror,
    run w 0 (MethodReplaceCollection.body orm q)
    = ([EvStage2 q (Failed e q')], Finished [VErr u])
    /\ if has_code e "E_INVALID_TARGET_RECORD_IDS"
          || has_code e "E_INVALID_COLLECTION_ATTR_NAME"
          || has_code e "E_INVALID_ASSOCIATED_IDS"
       then err_name u = "UsageError" /\ err_code u = None
            /\ exists prefix,
                 err_message u = prefix +:+ "  " +:+ details +:+ nl
       else u = e.
Proof.
  intros Hforge Hdetails Hnoop.
  destruct (replaceCollection_run_failed w orm q q' e Hforge)
    as (args & Hrun & [[_ Habs]|(u & -> & _ & Hu)]); [congruence|].
  exists u. split; [exact Hrun|].
  unfold details_line in Hu. rewrite Hdetails in Hu. exact Hu.
Qed.

Lemma replaceCollection_stage_two_errors_witness :
  let e := Kennel.forger_error "E_INVALID_ASSOCIATED_IDS" "Not an id: true." in
  exists u : jserror,
    run (Kennel.rejecting e) 0
        (MethodReplaceCollection.body (Build_Orm ∅) Zoo.replace_owners)
    = ([EvStage2 Zoo.replace_owners (Failed e Zoo.replace_owners)],
       Finished [VErr u])
    /\ err_name u = "UsageError" /\ err_code u = None
    /\ exists prefix,
         err_message u = prefix +:+ "  " +:+ "Not an id: true." +:+ nl.
Proof.
  intros e.
  destruct (replaceCollection_stage_two_errors (Kennel.rejecting e)
              (Build_Orm ∅) Zoo.replace_owners Zoo.replace_owners e
              "Not an id: true." eq_refl eq_refl eq_refl)
    as (u & Hrun & Hu).
  exists u. split; [exact Hrun | exact Hu].
Defined.

(** Up to the call of the final callback of a fan-out: either no callback
    reported an error and the final callback gets [null], or the last
    callback that fired reported the error the final callback gets, and
    it is the first one that reported an error. *)
Lemma drain_outcome (w : World) (base fuel : nat) :
  forall (step : nat) (pending : list (nat * call)),
    let r := drain w base fuel step pending in
    if truthy r.2 then
      errors r.1 = [r.2]
      /\ exists c args, last r.1 = Some (EvBack c args) /\ arg 0 args = r.2
    else r.2 = VNull /\ errors r.1 = [].
Proof.
  induction fuel as [|fuel IH]; intros step pending; cbv zeta;
    [by split|].
  cbn [drain]. destruct (pending !! _) as [[ticket c]|]; [|by split].
  destruct (truthy (arg 0 (respond w ticket c))) eqn:Herr.
  - cbn [fst snd]. rewrite Herr, errors_back, Herr. split; [reflexivity|].
    by exists c, (respond w ticket c).
  - specialize (IH (S step)
                   (delete (pick w base step `mod` length pending) pending)).
    cbv zeta in IH.
    destruct (drain w base fuel (S step) _) as [evs err]. cbn [fst snd] in *.
    rewrite errors_back, Herr. destruct (truthy err); [|exact IH].
    destruct IH as (Herrors & c' & args' & Hlast & Harg).
    split; [exact Herrors|]. exists c', args'. split; [|exact Harg].
    rewrite last_cons, Hlast. reflexivity.
Qed.

(** What reaches [done] in a run of [replaceCollection], against what the
    callbacks of the run reported. *)
Lemma replaceCollection_done (w : World) (orm : Orm) (q : Query) :
  let r := run w 0 (MethodReplaceCollection.body orm q) in
  match r.2 with
  | Finished [] => errors r.1 = []
  | Finished [e] =>
      truthy e = true
      /\ (issued r.1 = [] /\ errors r.1 = [] \/ head (errors r.1) = Some e)
  | Finished _ => False
  | Crashed _ => errors r.1 = []
  end.
Proof.
  cbv zeta. destruct (stage_two w q) as [q'|e q'] eqn:Hforge.
  - destruct (MethodReplaceCollection.resolve orm q')
      as [e|e|WLModel schemaDef WLChild manyToMany] eqn:Hresolve.
    + cbn [run MethodReplaceCollection.body]. rewrite Hforge, Hresolve.
      reflexivity.
    + cbn [run MethodReplaceCollection.body]. rewrite Hforge, Hresolve.
      cbn. split; [reflexivity|]. by left.
    + rewrite (replaceCollection_forged w orm q q' _ _ _ _ Hforge Hresolve).
      cbv zeta. cbn [fst snd]. rewrite errors_forging. destruct manyToMany.
      * rewrite expand_manyToMany_run. cbv zeta.
        destruct (truthy (arg 0 (respond w 0 _))) eqn:Hdestroy.
        { cbn [fst snd]. autorewrite with trace_errors. rewrite Hdestroy.
          split; [reflexivity || assumption|]. by right. }
        destruct (length_is_zero (associatedIds q')) as [[|]|];
          cbn [fst snd]; autorewrite with trace_errors;
          rewrite ?Hdestroy; try reflexivity.
        destruct (truthy (arg 0 (respond w 1 _))) eqn:Hcreate;
          [|reflexivity].
        split; [reflexivity || assumption|]. by right.
      * rewrite expand_oneToMany_run. cbv zeta.
        destruct (truthy (arg 0 (respond w 0 _))) eqn:Hnull.
        { cbn [fst snd]. autorewrite with trace_errors. rewrite Hnull.
          split; [reflexivity || assumption|]. by right. }
        cbn [fst snd]. autorewrite with trace_errors. rewrite Hnull.
        cbn [app].
        pose proof (drain_outcome w 1
                      (length (pair_updates schemaDef WLChild q')) 0
                      (tickets 1 (pair_updates schemaDef WLChild q')))
          as Hfan.
        pose proof (late_after_success w 1
                      (length (pair_updates schemaDef WLChild q')) 0
                      (tickets 1 (pair_updates schemaDef WLChild q')))
          as Hlate.
        cbv zeta in Hfan.
        destruct (drain w 1 _ 0 _) as [evs err]. cbn [fst snd] in *.
        rewrite ?errors_app.
        destruct (truthy err) eqn:Herr.
        -- destruct Hfan as (Herrors & _).
           split; [reflexivity || assumption|]. right.
           by rewrite Herrors.
        -- destruct Hfan as (_ & Herrors).
           by rewrite Herrors, (Hlate eq_refl).
  - destruct (replaceCollection_run_failed w orm q q' e Hforge)
      as (args & -> & [[-> _]|(u & -> & _)]); cbn [fst snd].
    + reflexivity.
    + split; [reflexivity|]. by left.
Qed.

(** X14.  [replaceCollection] never hands [done] a result: in every run,
    whatever the world answers and whatever its callbacks carry, [done]
    is called with no argument or with one argument, an error. *)
Theorem replaceCollection_hands_back_no_result (w : World) (orm : Orm)
    (q : Query) :
  match (run w 0 (MethodReplaceCollection.body orm q)).2 with
  | Finished [] => True
  | Finished [e] => truthy e = true
  | Finished _ => False
  | Crashed _ => True
  end.
Proof.
  pose proof (replaceCollection_done w orm q) as H. cbv zeta in H.
  destruct (run w 0 _).2 as [[|e [|]]|]; try exact I; [|exact H].
  exact (proj1 H).
Qed.









(** In that world all four per-pair updates fail: [done] gets the error
    of the first callback, and the three later errors are dropped. *)
Example replace_toys_later_failures :
  let w := Kennel.answering
             (fun c => match c with
                       | Update _ (VDict [("where", VDict [("id", VNum 5)])]) _ _ =>
                           [Kennel.down]
                       | Update _ (VDict [("where", VDict [("id", VNum 6)])]) _ _ =>
                           [Kennel.busy]
                       | _ => []
                       end) in
  let r := run w 0 (MethodReplaceCollection.body Zoo.orm Zoo.replace_toys) in
  errors r.1 = [Kennel.down; Kennel.busy; Kennel.down; Kennel.busy]
  /\ length (issued r.1) = 5
  /\ length (called_back r.1) = 5
  /\ r.2 = Finished [Kennel.down].
Proof. repeat split. Qed.

(* ================================================================== *)
(** ** replaceCollection: when the association can not be looked up *)
(* ================================================================== *)

(** X16.  When a forged query (with a normalized [using]) names a model the
    ORM does not have, or a collection attribute (a string) that is no key
    of the model's schema, the lookup ends in a TypeError and no call is
    issued.  The TypeError is thrown outside every try block, and [done]
    is never called, except when the attribute name is one the schema
    object inherits ([constructor], [toString], ...): then the schema
    lookup gives a value, the TypeError comes from reading its
    [collection] inside the try block, and [done] receives it. *)
Theorem replaceCollection_unknown_attribute_throws (w : World) (orm : Orm)
    (q q' : Query) (name : string) :
  stage_two w q = Forged q' ->
  MethodReplaceCollection.is_normalized (using_ q') = true ->
  collectionAttrName q' = VStr name ->
  match collections orm !! using_ q' with
  | None => True
  | Some WLModel => assoc name (schema WLModel) = None
  end ->
  exists e : jserror,
    err_name e = "TypeError"
    /\ run w 0 (MethodReplaceCollection.body orm q)
       = ([EvStage2 q (Forged q')],
          match collections orm !! using_ q' with
          | Some _ =>
              if existsb (String.eqb name)
                         MethodReplaceCollection.inherited_names
              then Finished [VErr e]
              else Crashed e
          | None => Crashed e
          end).
Proof.
  intros Hforge Hnormal Hname Hmissing.
  cbn [run MethodReplaceCollection.body]. rewrite Hforge.
  unfold MethodReplaceCollection.resolve. rewrite Hnormal. cbn [negb].
  destruct (collections orm !! using_ q') as [WLModel|].
  - unfold MethodReplaceCollection.schema_entry. rewrite Hname.
    cbn [MethodReplaceCollection.property_name mbind option_bind].
    rewrite Hmissing.
    destruct (existsb (String.eqb name) MethodReplaceCollection.inherited_names).
    + exists (type_error "toLowerCase"). split; reflexivity.
    + exists (type_error "collection"). split; reflexivity.
  - exists (type_error "schema"). split; reflexivity.
Qed.

Lemma replaceCollection_unknown_attribute_throws_witness :
  (exists e : jserror,
     err_name e = "TypeError"
     /\ run Zoo.quiet 0
           (MethodReplaceCollection.body Zoo.orm Kennel.replace_friends)
        = ([EvStage2 Kennel.replace_friends (Forged Kennel.replace_friends)],
           Crashed e))
  /\ (exists e : jserror,
        err_name e = "TypeError"
        /\ run Zoo.quiet 0
              (MethodReplaceCollection.body Zoo.orm Kennel.replace_constructor)
           = ([EvStage2 Kennel.replace_constructor
                 (Forged Kennel.replace_constructor)],
              Finished [VErr e])).
Proof.
  split.
  - apply (replaceCollection_unknown_attribute_throws Zoo.quiet Zoo.orm
             Kennel.replace_friends Kennel.replace_friends "friends");
      reflexivity.
  - apply (replaceCollection_unknown_attribute_throws Zoo.quiet Zoo.orm
             Kennel.replace_constructor Kennel.replace_constructor
             "constructor"); reflexivity.
Defined.

(** X17.  A schema entry whose identities are normalized but point at a
    model that is not loaded fails in two ways.  If the model its
    [collection] names is missing, the TypeError is caught and handed to
    [done].  If that model is there, its identity is normalized, and the
    entry references another model that is missing, the TypeError is
    thrown outside the try block and [done] is never called.  Neither
    run issues a call. *)
Theorem replaceCollection_missing_child_model (w : World) (orm : Orm)
    (q q' : Query) (WLModel : Model) (schemaDef : AttrDef) (c r : string) :
  stage_two w q = Forged q' ->
  MethodReplaceCollection.is_normalized (using_ q') = true ->
  collections orm !! using_ q' = Some WLModel ->
  MethodReplaceCollection.schema_entry (collectionAttrName q') WLModel
  = Some schemaDef ->
  collection schemaDef = Some c ->
  referenceIdentity schemaDef = Some r ->
  MethodReplaceCollection.is_normalized c = true ->
  MethodReplaceCollection.is_normalized r = true ->
  (collections orm !! c = None ->
   run w 0 (MethodReplaceCollection.body orm q)
   = ([EvStage2 q (Forged q')],
      Finished [VErr MethodReplaceCollection.no_prototype]))
  /\ (forall first : Model,
        collections orm !! c = Some first ->
        MethodReplaceCollection.is_normalized (identity first) = true ->
        r <> identity first ->
        collections orm !! r = None ->
        run w 0 (MethodReplaceCollection.body orm q)
        = ([EvStage2 q (Forged q')],
           Crashed MethodReplaceCollection.no_prototype)).
Proof.
  intros Hforge Hnormal Hmodel Hentry Hc Hr Hcn Hrn.
  split.
  - intros Hfirst.
    cbn [run MethodReplaceCollection.body]. rewrite Hforge.
    unfold MethodReplaceCollection.resolve.
    rewrite Hnormal, Hmodel, Hentry, Hc, Hr, Hcn, Hrn.
    cbn [negb mbind option_bind]. rewrite Hfirst. reflexivity.
  - intros first Hfirst Hfn Hdiffer Hother.
    cbn [run MethodReplaceCollection.body]. rewrite Hforge.
    unfold MethodReplaceCollection.resolve.
    rewrite Hnormal, Hmodel, Hentry, Hc, Hr, Hcn, Hrn.
    cbn [negb mbind option_bind]. rewrite Hfirst, Hfn.
    apply String.eqb_neq in Hdiffer. rewrite Hdiffer.
    cbn [negb]. rewrite Hother. reflexivity.
Qed.

Lemma replaceCollection_missing_child_model_witness :
  run Zoo.quiet 0 (MethodReplaceCollection.body Kennel.orm Zoo.replace_owners)
  = ([EvStage2 Zoo.replace_owners (Forged Zoo.replace_owners)],
     Finished [VErr MethodReplaceCollection.no_prototype])
  /\ run Zoo.quiet 0
         (MethodReplaceCollection.body Kennel.orm_without_visit Zoo.replace_vets)
  = ([EvStage2 Zoo.replace_vets (Forged Zoo.replace_vets)],
     Crashed MethodReplaceCollection.no_prototype).
Proof.
  split.
  - apply (replaceCollection_missing_child_model Zoo.quiet Kennel.orm
             Zoo.replace_owners Zoo.replace_owners Zoo.Pet Zoo.owners
             "pet_owners" "pet_owners"); reflexivity.
  - destruct (replaceCollection_missing_child_model Zoo.quiet
                Kennel.orm_without_visit Zoo.replace_vets Zoo.replace_vets
                Zoo.Pet Zoo.vets "vet" "visit"
                eq_refl eq_refl eq_refl eq_refl eq_refl eq_refl eq_refl eq_refl)
      as [_ Hthrown].
    apply (Hthrown Zoo.Vet); reflexivity || discriminate.
Defined.

(* ================================================================== *)
(** ** replaceCollection: the references of a join table *)
(* ================================================================== *)

Lemma assoc_unique {A : Type} (k : string) (v : A) (o : list (string * A)) :
  NoDup o.*1 -> (k, v) ∈ o -> assoc k o = Some v.
Proof.
  induction o as [|[k' v'] o IH]; intros Hnodup Hin.
  - by apply not_elem_of_nil in Hin.
  - rewrite fmap_cons in Hnodup. apply NoDup_cons in Hnodup as [Hfresh Hnodup].
    cbn. apply elem_of_cons in Hin as [[= <- <-]|Hin].
    + by rewrite String.eqb_refl.
    + destruct (String.eqb_spec k k') as [->|_]; [|by apply IH].
      exfalso. apply Hfresh. apply list_elem_of_fmap. by exists (k', v).
Qed.

(** A reference a loop over a junction schema found is a key of the schema
    whose attribute has [references] and passes the test of the loop. *)
Lemma junction_reference_found (test : AttrDef -> option string -> bool)
    (schemaDef : AttrDef) (WLChild : Model) (k : string) :
  MethodReplaceCollection.junction_reference test schemaDef WLChild = Some k ->
  exists d, (k, d) ∈ schema WLChild /\ is_Some (references d)
            /\ test d (on schemaDef) = true.
Proof.
  unfold MethodReplaceCollection.junction_reference.
  assert (Hgen : forall l acc,
    foldl (fun reference (kd : string * AttrDef) =>
             if negb (bool_decide (is_Some (references kd.2))) then reference
             else if test kd.2 (on schemaDef) then Some kd.1
             else reference) acc l = Some k ->
    acc = Some k
    \/ exists d, (k, d) ∈ l /\ is_Some (references d)
                 /\ test d (on schemaDef) = true).
  { induction l as [|[k0 d0] l IH]; intros acc Hfold; [by left|].
    cbn [foldl fst snd] in Hfold. apply IH in Hfold as [Hacc|(d & Hin & H)].
    - destruct (bool_decide (is_Some (references d0))) eqn:Href;
        cbn [negb] in Hacc; [|by left].
      destruct (test d0 (on schemaDef)) eqn:Htest; [|by left].
      injection Hacc as ->. right. exists d0.
      split; [left | split; [by apply bool_decide_eq_true in Href | done]].
    - right. exists d. split; [by right | done]. }
  intros Hfold. by apply Hgen in Hfold as [?|?].
Qed.

(** X18.  On a junction table whose schema has distinct keys, when both
    loops find a reference, the parent reference and the child reference
    are two different attributes, each with [references]: the column of
    the parent reference is the [on] of the schema entry, the column of
    the child reference is another one.  So every join record of the
    insert has two keys. *)
Theorem junction_references_differ (WLModel : Model) (schemaDef : AttrDef)
    (WLChild : Model) (q : Query) (p c : string) :
  MethodReplaceCollection.is_junction WLChild = true ->
  NoDup (schema WLChild).*1 ->
  MethodReplaceCollection.find_references WLModel schemaDef WLChild q
  = (Some p, Some c) ->
  p <> c
  /\ (exists dp, assoc p (schema WLChild) = Some dp
                 /\ is_Some (references dp)
                 /\ is_Some (columnName dp)
                 /\ columnName dp = on schemaDef)
  /\ (exists dc, assoc c (schema WLChild) = Some dc
                 /\ is_Some (references dc)
                 /\ is_Some (columnName dc)
                 /\ columnName dc <> on schemaDef).
Proof.
  intros Hjunction Hnodup Hrefs.
  unfold MethodReplaceCollection.find_references in Hrefs.
  rewrite Hjunction in Hrefs. injection Hrefs as Hp Hc.
  apply junction_reference_found in Hp as (dp & Hinp & Hrefp & Htestp).
  apply junction_reference_found in Hc as (dc & Hinc & Hrefc & Htestc).
  pose proof (assoc_unique p dp _ Hnodup Hinp) as Hap.
  pose proof (assoc_unique c dc _ Hnodup Hinc) as Hac.
  unfold MethodReplaceCollection.column_is in Htestp.
  unfold MethodReplaceCollection.column_is_not in Htestc.
  assert (Hcolp : is_Some (columnName dp) /\ columnName dp = on schemaDef).
  { destruct (columnName dp) as [x|], (on schemaDef) as [o|];
      try discriminate. apply String.eqb_eq in Htestp as ->. by eauto. }
  assert (Hcolc : is_Some (columnName dc) /\ columnName dc <> on schemaDef).
  { destruct (columnName dc) as [x|], (on schemaDef) as [o|];
      try discriminate; split; eauto; try discriminate.
    apply negb_true_iff, String.eqb_neq in Htestc. congruence. }
  split; [|split].
  - intros ->. rewrite Hap in Hac. injection Hac as ->.
    destruct Hcolp as [_ Heq], Hcolc as [_ Hne]. contradiction.
  - exists dp. by destruct Hcolp.
  - exists dc. by destruct Hcolc.
Qed.

Lemma junction_references_differ_witness :
  "pet_owners" <> "owner_pets"
  /\ (exists dp, assoc "pet_owners" (schema Zoo.PetOwners) = Some dp
                 /\ is_Some (references dp)
                 /\ is_Some (columnName dp)
                 /\ columnName dp = on Zoo.owners)
  /\ (exists dc, assoc "owner_pets" (schema Zoo.PetOwners) = Some dc
                 /\ is_Some (references dc)
                 /\ is_Some (columnName dc)
                 /\ columnName dc <> on Zoo.owners).
Proof.
  apply (junction_references_differ Zoo.Pet Zoo.owners Zoo.PetOwners
           Zoo.replace_owners "pet_owners" "owner_pets").
  - reflexivity.
  - apply (bool_decide_unpack _). vm_compute. exact I.
  - reflexivity.
Defined.

(** X19.  On a through table (a child with a [throughTable] mapping that is
    no junction table), for an attribute name that is a string, the child
    reference is the entry of the mapping under the key
    "<identity of the parent>.<attribute name>", if there is one, and the
    parent reference is the value of an entry under another key: there is
    a parent reference exactly when the mapping has such an entry. *)
Theorem through_references (WLModel : Model) (schemaDef : AttrDef)
    (WLChild : Model) (q : Query) (mapping : list (string * string))
    (name : string) :
  MethodReplaceCollection.is_junction WLChild = false ->
  throughTable WLChild = Some mapping ->
  collectionAttrName q = VStr name ->
  let refs := MethodReplaceCollection.find_references WLModel schemaDef WLChild q in
  let key := identity WLModel +:+ "." +:+ name in
  refs.2 = assoc key mapping
  /\ match refs.1 with
     | Some p => exists k, (k, p) ∈ mapping /\ k <> key
     | None => forall k p, (k, p) ∈ mapping -> k = key
     end.
Proof.
  intros Hjunction Hthrough Hname refs key. subst refs.
  unfold MethodReplaceCollection.find_references.
  rewrite Hjunction, Hthrough. cbn [fst snd].
  assert (Hkey : MethodReplaceCollection.through_key WLModel q = key).
  { unfold MethodReplaceCollection.through_key. by rewrite Hname. }
  rewrite Hkey.
  split; [reflexivity|].
  assert (Hgen : forall l acc,
    match foldl (fun parentReference (kr : string * string) =>
                   if negb (String.eqb kr.1 key) then Some kr.2
                   else parentReference) acc l with
    | Some p => acc = Some p \/ exists k, (k, p) ∈ l /\ k <> key
    | None => acc = None /\ forall k p, (k, p) ∈ l -> k = key
    end).
  { induction l as [|[k0 p0] l IH]; intros acc.
    - cbn. destruct acc; [by left|]. split; [done|].
      intros k p Hin. by apply not_elem_of_nil in Hin.
    - cbn [foldl fst snd]. specialize (IH
        (if negb (String.eqb k0 key) then Some p0 else acc)).
      destruct (foldl _ _ l) as [p|].
      + destruct IH as [Hacc|(k & Hin & Hne)].
        * destruct (String.eqb_spec k0 key) as [->|Hne]; cbn [negb] in Hacc;
            [by left|].
          injection Hacc as ->. right. exists k0. split; [left | done].
        * right. exists k. split; [by right | done].
      + destruct IH as [Hacc Hall].
        destruct (String.eqb_spec k0 key) as [->|Hne]; cbn [negb] in Hacc;
          [|discriminate].
        split; [done|]. intros k p [[= -> ->]|Hin]%elem_of_cons; [done|].
        by apply (Hall k p). }
  specialize (Hgen mapping None).
  destruct (foldl _ None mapping) as [p|].
  - by destruct Hgen as [?|?].
  - by destruct Hgen.
Qed.

Lemma through_references_witness :
  (MethodReplaceCollection.find_references Zoo.Pet Zoo.vets Kennel.Visit
     Zoo.replace_vets).2 = Some "vet"
  /\ exists k, (k, "pet") ∈ [("pet.vets", "vet"); ("vet.pets", "pet")]
               /\ k <> "pet.vets".
Proof.
  exact (through_references Zoo.Pet Zoo.vets Kennel.Visit Zoo.replace_vets
           [("pet.vets", "vet"); ("vet.pets", "pet")] "vets"
           eq_refl eq_refl eq_refl).
Defined.

(* ================================================================== *)
(** ** replaceCollection: the calls of a run *)
(* ================================================================== *)

Lemma updateQueries_length (schemaDef : AttrDef) (WLChild : Model) (q : Query) :
  length (MethodReplaceCollection.updateQueries schemaDef WLChild q)
  = length (each_items (targetRecordIds q))
    * length (each_items (associatedIds q)).
Proof.
  unfold MethodReplaceCollection.updateQueries.
  induction (each_items (targetRecordIds q)) as [|t T IH]; [reflexivity|].
  cbn [flat_map length]. rewrite length_app, length_map, IH. lia.
Qed.

Lemma pair_updates_length (schemaDef : AttrDef) (WLChild : Model) (q : Query) :
  length (pair_updates schemaDef WLChild q)
  = length (each_items (targetRecordIds q))
    * length (each_items (associatedIds q)).
Proof.
  unfold pair_updates. rewrite length_map. apply updateQueries_length.
Qed.

(** The calls of a run on a resolved association. *)
Lemma replaceCollection_issued (w : World) (orm : Orm) (q q' : Query)
    (WLModel : Model) (schemaDef : AttrDef) (WLChild : Model)
    (manyToMany : bool) (c : call) :
  stage_two w q = Forged q' ->
  MethodReplaceCollection.resolve orm q'
    = MethodReplaceCollection.Resolved WLModel schemaDef WLChild manyToMany ->
  c ∈ issued (run w 0 (MethodReplaceCollection.body orm q)).1 ->
  if manyToMany then
    exists criteria records,
      let modifiedMeta :=
        VDict (dict_set "fetch" (VBool false)
                        (MethodReplaceCollection.modifiedMeta q')) in
      c = Destroy (identity WLChild) criteria modifiedMeta
      \/ c = CreateEach (identity WLChild) records modifiedMeta
  else
    c = null_out schemaDef WLChild q'
    \/ c ∈ pair_updates schemaDef WLChild q'.
Proof.
  intros Hforge Hresolve.
  rewrite (replaceCollection_forged w orm q q' _ _ _ _ Hforge Hresolve).
  cbv zeta. cbn [fst]. rewrite issued_forging. destruct manyToMany.
  - rewrite expand_manyToMany_run. cbv zeta.
    destruct (truthy (arg 0 (respond w 0 _))).
    + cbn [fst issued omap]. intros ->%list_elem_of_singleton.
      eexists _, VNull. by left.
    + destruct (length_is_zero (associatedIds q')) as [[|]|];
        cbn [fst]; rewrite issued_call, issued_back, ?issued_call, ?issued_back;
        cbn [issued omap]; intros Hin.
      * apply list_elem_of_singleton in Hin as ->. eexists _, VNull. by left.
      * apply elem_of_cons in Hin as [->|Hin]; [eexists _, VNull; by left|].
        apply list_elem_of_singleton in Hin as ->. eexists VNull, _. by right.
      * apply list_elem_of_singleton in Hin as ->. eexists _, VNull. by left.
  - rewrite expand_oneToMany_run. cbv zeta.
    destruct (truthy (arg 0 (respond w 0 _))); cbn [fst];
      rewrite issued_call, issued_back.
    + cbn [issued omap]. intros ->%list_elem_of_singleton. by left.
    + rewrite issued_fanout.
      intros [->|Hin]%elem_of_cons; [by left | by right].
Qed.

(** X20.  On a one-to-many association with no target id or no associated
    id to visit, the run is the null-out update alone: no per-pair update
    is issued, and [done] gets the error of the null-out update or
    nothing.  (On this path [associatedIds] is only iterated, so a value
    with nothing to iterate ends the same way as an empty array.) *)
Theorem replaceCollection_oneToMany_without_pairs (w : World) (orm : Orm)
    (q q' : Query) (WLModel : Model) (schemaDef : AttrDef) (WLChild : Model) :
  stage_two w q = Forged q' ->
  MethodReplaceCollection.resolve orm q'
    = MethodReplaceCollection.Resolved WLModel schemaDef WLChild false ->
  each_items (targetRecordIds q') = []
  \/ each_items (associatedIds q') = [] ->
  let nullOut := null_out schemaDef WLChild q' in
  let nulled := respond w 0 nullOut in
  run w 0 (MethodReplaceCollection.body orm q)
  = ([EvStage2 q (Forged q'); EvCall nullOut; EvBack nullOut nulled],
     Finished (if truthy (arg 0 nulled) then [arg 0 nulled] else [])).
Proof.
  intros Hforge Hresolve Hnone nullOut nulled.
  assert (Hpairs : pair_updates schemaDef WLChild q' = []).
  { apply length_zero_iff_nil. rewrite pair_updates_length.
    destruct Hnone as [-> | ->]; cbn [length]; lia. }
  rewrite (replaceCollection_forged w orm q q' _ _ _ _ Hforge Hresolve).
  cbv zeta. rewrite expand_oneToMany_run. cbv zeta. rewrite Hpairs.
  fold nullOut. fold nulled.
  by destruct (truthy (arg 0 nulled)).
Qed.

Lemma replaceCollection_oneToMany_without_pairs_witness :
  let nullOut :=
    Update "toy"
      (VDict [("where", VDict [("pet", VDict [("in", VArr [VNum 1])])])])
      (VDict [("pet", VNull)])
      (VDict [("skipAllLifecycleCallbacks", VBool true)]) in
  run Zoo.quiet 0 (MethodReplaceCollection.body Zoo.orm Kennel.clear_toys)
  = ([EvStage2 Kennel.clear_toys (Forged Kennel.clear_toys);
      EvCall nullOut; EvBack nullOut []],
     Finished []).
Proof.
  intros nullOut.
  apply (replaceCollection_oneToMany_without_pairs Zoo.quiet Zoo.orm
           Kennel.clear_toys Kennel.clear_toys Zoo.Pet Zoo.toys Zoo.Toy);
    [reflexivity | reflexivity | right; reflexivity].
Defined.

(** X21.  On a one-to-many association, once the null-out update has
    reported no error, the run issues every per-pair update, whatever the
    schedule and whether or not one of them fails: the calls of the run
    are the null-out update and one update per pair of a target id and an
    associated id. *)
Theorem replaceCollection_oneToMany_issues_every_update (w : World)
    (orm : Orm) (q q' : Query) (WLModel : Model) (schemaDef : AttrDef)
    (WLChild : Model) :
  stage_two w q = Forged q' ->
  MethodReplaceCollection.resolve orm q'
    = MethodReplaceCollection.Resolved WLModel schemaDef WLChild false ->
  truthy (arg 0 (respond w 0 (null_out schemaDef WLChild q'))) = false ->
  let calls := issued (run w 0 (MethodReplaceCollection.body orm q)).1 in
  calls = null_out schemaDef WLChild q' :: pair_updates schemaDef WLChild q'
  /\ length calls
     = 1 + length (each_items (targetRecordIds q'))
           * length (each_items (associatedIds q')).
Proof.
  intros Hforge Hresolve Hnulled calls.
  assert (Hcalls : calls = null_out schemaDef WLChild q'
                           :: pair_updates schemaDef WLChild q').
  { subst calls.
    rewrite (replaceCollection_forged w orm q q' _ _ _ _ Hforge Hresolve).
    cbv zeta. rewrite expand_oneToMany_run. cbv zeta. rewrite Hnulled.
    cbn [fst]. rewrite issued_forging, issued_call, issued_back,
      issued_fanout. reflexivity. }
  split; [exact Hcalls|].
  rewrite Hcalls. cbn [length]. by rewrite pair_updates_length.
Qed.

Lemma replaceCollection_oneToMany_issues_every_update_witness :
  let w := Kennel.answering
             (fun c => match c with
                       | Update _ (VDict [("where", VDict [("id", VNum 5)])]) _ _ =>
                           [Kennel.down]
                       | _ => []
                       end) in
  length (issued (run w 0 (MethodReplaceCollection.body Zoo.orm
                             Zoo.replace_toys)).1)
  = 1 + 2 * 2.
Proof.
  intros w.
  apply (replaceCollection_oneToMany_issues_every_update w Zoo.orm
           Zoo.replace_toys Zoo.replace_toys Zoo.Pet Zoo.toys Zoo.Toy);
    reflexivity.
Defined.

(** When no pending call reports an error, every callback of a fan-out
    fires, once, under every schedule. *)
Lemma drain_all_fire (w : World) (base : nat) :
  forall (n : nat) (pending : list (nat * call)) (step : nat),
    length pending = n ->
    (forall tc, tc ∈ pending -> truthy (arg 0 (respond w tc.1 tc.2)) = false) ->
    exists order : list (nat * call),
      order ≡ₚ pending
      /\ drain w base n step pending = (map (back w) order, VNull).
Proof.
  induction n as [|n IH]; intros pending step Hlen Hok.
  - apply length_zero_iff_nil in Hlen as ->. by exists [].
  - cbn [drain]. set (i := pick w base step `mod` length pending).
    assert (Hlt : i < length pending).
    { subst i. apply Nat.mod_upper_bound. lia. }
    destruct (lookup_lt_is_Some_2 pending i Hlt) as [[ticket c] Hi].
    rewrite Hi.
    pose proof (delete_Permutation pending i _ Hi) as Hdel.
    assert (Hquiet : truthy (arg 0 (respond w ticket c)) = false).
    { apply (Hok (ticket, c)). rewrite Hdel. left. }
    rewrite Hquiet.
    destruct (IH (delete i pending) (S step)) as (order & Hperm & ->).
    + rewrite length_delete by eauto. lia.
    + intros tc Htc. apply Hok. rewrite Hdel. by right.
    + exists ((ticket, c) :: order). split; [|reflexivity].
      rewrite Hdel. by constructor.
Qed.

(** X22.  On a one-to-many association, when neither the null-out update
    nor any per-pair update reports an error, then under every schedule
    the callback of every per-pair update fires exactly once, after all
    the per-pair updates were issued, and the run ends with [done()]. *)
Theorem replaceCollection_oneToMany_every_callback_fires (w : World)
    (orm : Orm) (q q' : Query) (WLModel : Model) (schemaDef : AttrDef)
    (WLChild : Model) :
  stage_two w q = Forged q' ->
  MethodReplaceCollection.resolve orm q'
    = MethodReplaceCollection.Resolved WLModel schemaDef WLChild false ->
  let nullOut := null_out schemaDef WLChild q' in
  let pairs := pair_updates schemaDef WLChild q' in
  truthy (arg 0 (respond w 0 nullOut)) = false ->
  (forall tc, tc ∈ tickets 1 pairs ->
              truthy (arg 0 (respond w tc.1 tc.2)) = false) ->
  exists order : list (nat * call),
    order ≡ₚ tickets 1 pairs
    /\ run w 0 (MethodReplaceCollection.body orm q)
       = (EvStage2 q (Forged q') :: EvCall nullOut
            :: EvBack nullOut (respond w 0 nullOut)
            :: map EvCall pairs ++ map (back w) order,
          Finished []).
Proof.
  intros Hforge Hresolve nullOut pairs Hnulled Hok.
  assert (Hlen : length (tickets 1 pairs) = length pairs).
  { unfold tickets. apply length_imap. }
  destruct (drain_all_fire w 1 (length pairs) (tickets 1 pairs) 0 Hlen Hok)
    as (order & Hperm & Hdrain).
  exists order. split; [exact Hperm|].
  rewrite (replaceCollection_forged w orm q q' _ _ _ _ Hforge Hresolve).
  cbv zeta. rewrite expand_oneToMany_run. cbv zeta.
  fold nullOut. fold pairs.
  rewrite (late_after_success w 1 _ 0 (tickets 1 pairs))
    by (by rewrite Hdrain).
  rewrite Hnulled, Hdrain, app_nil_r. reflexivity.
Qed.

Lemma replaceCollection_oneToMany_every_callback_fires_witness :
  exists order : list (nat * call),
    order ≡ₚ tickets 1 (pair_updates Zoo.toys Zoo.Toy Zoo.replace_toys)
    /\ run Zoo.strict 0 (MethodReplaceCollection.body Zoo.orm Zoo.replace_toys)
       = (EvStage2 Zoo.replace_toys (Forged Zoo.replace_toys)
            :: EvCall (null_out Zoo.toys Zoo.Toy Zoo.replace_toys)
            :: EvBack (null_out Zoo.toys Zoo.Toy Zoo.replace_toys) []
            :: map EvCall (pair_updates Zoo.toys Zoo.Toy Zoo.replace_toys)
               ++ map (back Zoo.strict) order,
          Finished []).
Proof.
  apply (replaceCollection_oneToMany_every_callback_fires Zoo.strict Zoo.orm
           Zoo.replace_toys Zoo.replace_toys Zoo.Pet Zoo.toys Zoo.Toy);
    [reflexivity | reflexivity | reflexivity | intros tc _; reflexivity].
Defined.

(** X23.  Every call of a run of [replaceCollection] on a resolved
    association is made on the child model of the association (the join
    or through table, when there is one): [destroy] and [createEach] on
    the many-to-many path only, [update] on the one-to-many path only.
    (On a self-association the child model is the parent model, and the
    updates are made on it.) *)
Theorem replaceCollection_writes_the_child_only (w : World) (orm : Orm)
    (q q' : Query) (WLModel : Model) (schemaDef : AttrDef) (WLChild : Model)
    (manyToMany : bool) (c : call) :
  stage_two w q = Forged q' ->
  MethodReplaceCollection.resolve orm q'
    = MethodReplaceCollection.Resolved WLModel schemaDef WLChild manyToMany ->
  c ∈ issued (run w 0 (MethodReplaceCollection.body orm q)).1 ->
  call_model c = identity WLChild
  /\ match c with
     | Destroy _ _ _ | CreateEach _ _ _ => manyToMany = true
     | Update _ _ _ _ => manyToMany = false
     | _ => False
     end.
Proof.
  intros Hforge Hresolve Hin.
  pose proof (replaceCollection_issued w orm q q' _ _ _ _ c
                Hforge Hresolve Hin) as Hcall.
  destruct manyToMany.
  - by destruct Hcall as (criteria & records & [-> | ->]).
  - destruct Hcall as [-> | Hpair]; [done|].
    unfold pair_updates in Hpair.
    by apply list_elem_of_fmap in Hpair as (uq & -> & _).
Qed.

Lemma replaceCollection_writes_the_child_only_witness :
  call_model (null_out Kennel.kids Kennel.Cat Kennel.replace_kids) = "cat"
  /\ false = false.
Proof.
  apply (replaceCollection_writes_the_child_only Zoo.quiet Kennel.cats
           Kennel.replace_kids Kennel.replace_kids Kennel.Cat Kennel.kids
           Kennel.Cat false
           (null_out Kennel.kids Kennel.Cat Kennel.replace_kids));
    [reflexivity | reflexivity | vm_compute; left].
Defined.

(** X24.  The caller's meta reaches every call of [replaceCollection]:
    when the meta of the forged query is a dictionary with distinct keys,
    every key of it other than [skipAllLifecycleCallbacks] and [fetch]
    reads, in the meta of every call the run issues, as in the caller's
    meta. *)
Theorem replaceCollection_meta_reaches_every_call (w : World) (orm : Orm)
    (q q' : Query) (WLModel : Model) (schemaDef : AttrDef) (WLChild : Model)
    (manyToMany : bool) (m : dict) (k : string) (c : call) :
  stage_two w q = Forged q' ->
  MethodReplaceCollection.resolve orm q'
    = MethodReplaceCollection.Resolved WLModel schemaDef WLChild manyToMany ->
  meta q' = VDict m ->
  NoDup m.*1 ->
  k <> "skipAllLifecycleCallbacks" ->
  k <> "fetch" ->
  c ∈ issued (run w 0 (MethodReplaceCollection.body orm q)).1 ->
  get_prop (call_meta c) k = get_prop (VDict m) k.
Proof.
  intros Hforge Hresolve Hmeta Hnodup Hskip Hfetch Hin.
  assert (Hkeeps : dict_get k (MethodReplaceCollection.modifiedMeta q')
                   = dict_get k m).
  { unfold MethodReplaceCollection.modifiedMeta. rewrite Hmeta.
    cbn [or_empty truthy own_props].
    change (dict_extend (dict_extend [] m)
              [("skipAllLifecycleCallbacks", VBool true)])
      with (dict_set "skipAllLifecycleCallbacks" (VBool true)
              (dict_extend [] m)).
    rewrite dict_get_set_ne by exact Hskip.
    rewrite (dict_get_extend k m Hnodup []).
    by destruct (dict_get k m). }
  pose proof (replaceCollection_issued w orm q q' _ _ _ _ c
                Hforge Hresolve Hin) as Hcall.
  destruct manyToMany.
  - destruct Hcall as (criteria & records & [-> | ->]);
      cbn [call_meta get_prop];
      by rewrite dict_get_set_ne, Hkeeps by exact Hfetch.
  - destruct Hcall as [-> | Hpair].
    + cbn [null_out call_meta get_prop]. by rewrite Hkeeps.
    + unfold pair_updates in Hpair.
      apply list_elem_of_fmap in Hpair as (uq & -> & _).
      cbn [call_meta get_prop]. by rewrite Hkeeps.
Qed.

Lemma replaceCollection_meta_reaches_every_call_witness :
  let m := [("leasedConnection", VStr "db7"); ("fetch", VBool true)] in
  let q := set_meta (VDict m) Zoo.replace_owners in
  let destroy :=
    Destroy "pet_owners"
      (VDict [("where",
               VDict [("pet_owners", VDict [("in", VArr [VNum 1; VNum 2])])])])
      (VDict [("leasedConnection", VStr "db7"); ("fetch", VBool false);
              ("skipAllLifecycleCallbacks", VBool true)]) in
  get_prop (call_meta destroy) "leasedConnection"
  = get_prop (VDict m) "leasedConnection".
Proof.
  intros m q destroy.
  apply (replaceCollection_meta_reaches_every_call Zoo.quiet Zoo.orm q q
           Zoo.Pet Zoo.owners Zoo.PetOwners true m "leasedConnection" destroy).
  - reflexivity.
  - reflexivity.
  - reflexivity.
  - apply (bool_decide_unpack _). vm_compute. exact I.
  - discriminate.
  - discriminate.
  - vm_compute. left.
Defined.

(* ================================================================== *)
(** ** What the methods read from [arguments] *)
(* ================================================================== *)

(** X25.  [MethodFind.execute] and [MethodFindOrCreate.execute] read the
    usage from [arguments], whose first element is the model.  So, for
    every model and every list of further arguments: the [criteria] of the
    query they build is the model itself; [find] never takes its first
    variadic branch, reads the callback from the further argument 0 when
    that is a function and from the further argument 1 otherwise, and
    stores the further argument 0 as [populates] when it is no function;
    [findOrCreate] stores the further argument 0 as [newRecord], reads the
    callback from the further argument 1 and the meta from the further
    argument 2. *)
Theorem find_reads_the_model_as_criteria (obj : Model) (rest : list value) :
  let found := MethodFind.execute obj rest in
  let made := MethodFindOrCreate.execute obj rest in
  (criteria (_wlQueryInfo found) = VModel (identity obj)
   /\ explicitCbMaybe found
      = (if isFunction (arg 0 rest) then arg 0 rest else arg 1 rest)
   /\ populates (_wlQueryInfo found)
      = (if isFunction (arg 0 rest) then VUndefined else arg 0 rest)
   /\ meta (_wlQueryInfo found)
      = (if isFunction (arg 0 rest) then arg 1 rest else arg 2 rest))
  /\ (criteria (_wlQueryInfo made) = VModel (identity obj)
      /\ newRecord (_wlQueryInfo made) = arg 0 rest
      /\ explicitCbMaybe made = arg 1 rest
      /\ meta (_wlQueryInfo made) = arg 2 rest).
Proof.
  cbv zeta. split; [|by repeat split].
  unfold MethodFind.execute, MethodFind.handleVariadicUsage, arguments_of.
  destruct rest as [|first rest]; [by repeat split|].
  change (arg 0 (VModel (identity obj) :: first :: rest))
    with (VModel (identity obj)).
  change (arg 1 (VModel (identity obj) :: first :: rest)) with first.
  change (arg 0 (first :: rest)) with first.
  cbn [length Nat.leb isFunction andb].
  by destruct (isFunction first).
Qed.


(** The further argument 2 overwrites [method] and [using] as well:
    [execute(Pet, cb, undefined, { using: 'owner', method: 'sum' })]. *)
Example count_more_query_keys :
  let more := VDict [("using", VStr "owner"); ("method", VStr "sum")] in
  let extended :=
    {| method := "sum"; using_ := "owner"; criteria := VModel "pet";
       populates := VUndefined; newRecord := VUndefined;
       targetRecordIds := VUndefined; collectionAttrName := VUndefined;
       associatedIds := VUndefined; meta := VUndefined |} in
  MethodCount.execute Zoo.Pet [VFun "cb"; VUndefined; more]
  = Some {| handler := MethodCount.body Zoo.Pet extended;
            explicitCbMaybe := VFun "cb";
            _wlQueryInfo := extended |}.
Proof. reflexivity. Qed.
